(** * Session guardian and session-state tool: a shallow embedding

    Sources:
    - modules/session-guardian/amplifier_session_guardian/__init__.py
      (TokenTracker, _extract_tokens, _handle_response, _handle_request)
    - modules/tool-session-state/__init__.py
      (SessionStateTool: execute, _save_state, _load_state, _list_states,
       _prune_old_states) *)

From Stdlib Require Import ZArith QArith Qround String List Ascii Bool Lia Lqa Sorted Permutation SpecFloat.
Import ListNotations.
Open Scope string_scope.
Set Warnings "-register-all".

(** ** Shared helpers *)

(** Decimal rendering of an integer, as Python's [f"{n}"] and [%d] print it. *)
Fixpoint digits_aux (fuel : nat) (n : Z) (acc : string) : string :=
  match fuel with
  | O => acc
  | S f =>
      let acc' := String (ascii_of_nat (48 + Z.to_nat (n mod 10))) acc in
      if (n <? 10)%Z then acc' else digits_aux f (n / 10)%Z acc'
  end.

Definition string_of_Z (z : Z) : string :=
  if (z <? 0)%Z
  then "-" ++ digits_aux (S (Z.to_nat (Z.log2 (- z)))) (- z) ""
  else digits_aux (S (Z.to_nat (Z.log2 z))) z "".

(** Python dict [get] with a default, on an association list (first key wins). *)
Fixpoint dict_get {V : Type} (kvs : list (string * V)) (k : string) (dflt : V) : V :=
  match kvs with
  | [] => dflt
  | (k', v) :: rest => if String.eqb k k' then v else dict_get rest k dflt
  end.

Definition Qltb (x y : Q) : bool := negb (Qle_bool y x).

(** ** Session guardian *)
Module Guardian.

(** *** Python numbers *)

(** A Python [float] is an IEEE 754 binary64 number: 53 bits of
    precision, infinities at exponent 1024. *)
Definition prec : Z := 53.
Definition emax : Z := 1024.

(** An [int] as a float with exponent 0: the exact value, its mantissa not
    normalised.  [int / int] divides these exact values and rounds once,
    as CPython's [long_true_divide] does. *)
Definition exact_float (z : Z) : spec_float :=
  match z with
  | Z0 => S754_zero false
  | Zpos p => S754_finite false p 0
  | Zneg p => S754_finite true p 0
  end.

(** [float(n)] of an [int]: rounded to nearest, ties to even; [None] where
    Python raises [OverflowError] (the rounded value is past the largest
    double). *)
Definition float_of_int (z : Z) : option spec_float :=
  match binary_normalize prec emax z 0 false with
  | S754_infinity _ => None
  | f => Some f
  end.

(** The value [(-1)^s * m * 2^e] of a finite double. *)
Definition finite_value (s : bool) (m : positive) (e : Z) : Q :=
  let v := match e with
           | Zneg n => Zpos m # (2 ^ n)
           | _ => inject_Z (Zpos m * 2 ^ e)
           end in
  if s then - v else v.

(** The values Python compares: a rational, an infinity (negative when its
    flag is set) or NaN. *)
Inductive xreal : Type :=
| XFin (q : Q)
| XInf (neg : bool)
| XNaN.

Definition float_xreal (f : spec_float) : xreal :=
  match f with
  | S754_zero _ => XFin 0
  | S754_infinity s => XInf s
  | S754_nan => XNaN
  | S754_finite s m e => XFin (finite_value s m e)
  end.

(** The exact value of a finite double; [None] for an infinity or NaN. *)
Definition float_value (f : spec_float) : option Q :=
  match float_xreal f with XFin q => Some q | _ => None end.

(** [x < y] on extended values: NaN compares false; [int]/[float]
    comparisons in CPython are exact. *)
Definition xlt (x y : xreal) : bool :=
  match x, y with
  | XNaN, _ | _, XNaN => false
  | XFin a, XFin b => Qltb a b
  | XInf s, XInf s' => s && negb s'
  | XInf s, XFin _ => s
  | XFin _, XInf s' => negb s'
  end.

(** [x <= y]: false when either side is NaN. *)
Definition xle (x y : xreal) : bool :=
  match x, y with
  | XNaN, _ | _, XNaN => false
  | _, _ => negb (xlt y x)
  end.

(** *** Python values *)

(** Python values reaching the hooks: [None], [bool] (an [int]
    subclass), [int], [float], [str], a [dict], or an attribute-carrying
    object such as the pydantic [Usage] model. *)
Inductive pyval : Type :=
| PNone
| PBool (b : bool)
| PInt (z : Z)
| PFloat (f : spec_float)
| PStr (s : string)
| PDict (kvs : list (string * pyval))
| PObj (attrs : list (string * pyval)).

(** Python truthiness ([bool(v)]); a NaN is true. *)
Definition truthy (v : pyval) : bool :=
  match v with
  | PNone => false
  | PBool b => b
  | PInt z => negb (Z.eqb z 0)
  | PFloat f => match f with S754_zero _ => false | _ => true end
  | PStr s => negb (String.eqb s "")
  | PDict kvs => match kvs with [] => false | _ => true end
  | PObj _ => true
  end.

(** [v or 0] *)
Definition or0 (v : pyval) : pyval := if truthy v then v else PInt 0.

(** A Python number: an [int] (a [bool] counts as one) or a [float]. *)
Inductive pynum : Type :=
| NInt (z : Z)
| NFloat (f : spec_float).

(** The number a value is for [<], [<=] and [+]; [None] when Python raises
    [TypeError] (a [str], [None], a container or an object next to a
    number). *)
Definition as_num (v : pyval) : option pynum :=
  match v with
  | PBool b => Some (NInt (if b then 1 else 0))
  | PInt z => Some (NInt z)
  | PFloat f => Some (NFloat f)
  | _ => None
  end.

Definition num_xreal (n : pynum) : xreal :=
  match n with
  | NInt z => XFin (inject_Z z)
  | NFloat f => float_xreal f
  end.

(** [a < b]; [None] for [TypeError]. *)
Definition py_lt (a b : pyval) : option bool :=
  match as_num a, as_num b with
  | Some x, Some y => Some (xlt (num_xreal x) (num_xreal y))
  | _, _ => None
  end.

(** [a <= b]; [None] for [TypeError]. *)
Definition py_le (a b : pyval) : option bool :=
  match as_num a, as_num b with
  | Some x, Some y => Some (xle (num_xreal x) (num_xreal y))
  | _, _ => None
  end.

(** The operand of a [float] operation: an [int] is converted by
    [float(n)], which may raise [OverflowError]. *)
Definition to_float (n : pynum) : option spec_float :=
  match n with
  | NInt z => float_of_int z
  | NFloat f => Some f
  end.

(** [a + b]: exact on two [int]s, a rounded [float] sum otherwise;
    [None] when Python raises. *)
Definition py_add (a b : pyval) : option pyval :=
  match as_num a, as_num b with
  | Some (NInt x), Some (NInt y) => Some (PInt (x + y))
  | Some x, Some y =>
      match to_float x, to_float y with
      | Some fx, Some fy => Some (PFloat (SFadd prec emax fx fy))
      | _, _ => None
      end
  | _, _ => None
  end.

Definition is_zero (f : spec_float) : bool :=
  match f with S754_zero _ => true | _ => false end.

(** [a / b] (true division), a [float]; [None] when Python raises:
    [ZeroDivisionError] for a zero divisor, [OverflowError] when an
    [int / int] quotient or an [int] operand of a [float] division is too
    large for a double, [TypeError] for a non-number.  A [float] division
    that overflows gives an infinity. *)
Definition py_truediv (a b : pyval) : option spec_float :=
  match as_num a, as_num b with
  | Some (NInt x), Some (NInt y) =>
      if Z.eqb y 0 then None
      else match SFdiv prec emax (exact_float x) (exact_float y) with
           | S754_infinity _ => None
           | f => Some f
           end
  | Some x, Some y =>
      match to_float x, to_float y with
      | Some fx, Some fy => if is_zero fy then None else Some (SFdiv prec emax fx fy)
      | _, _ => None
      end
  | _, _ => None
  end.

(** [int(f)] of a [float]: truncation toward zero; [None] where Python
    raises ([OverflowError] on an infinity, [ValueError] on NaN). *)
Definition float_trunc (f : spec_float) : option Z :=
  match f with
  | S754_zero _ => Some 0%Z
  | S754_finite s m e =>
      let n := match e with
               | Zneg k => (Zpos m / Zpos (2 ^ k))%Z
               | _ => (Zpos m * 2 ^ e)%Z
               end in
      Some (if s then (- n)%Z else n)
  | _ => None
  end.

(** The literal [100] converted to a float (exactly). *)
Definition float_100 : spec_float := binary_normalize prec emax 100 0 false.

(** [int(pct * 100)] for a [float] [pct]: the product is rounded, then
    truncated. *)
Definition percent (pct : spec_float) : option Z :=
  float_trunc (SFmul prec emax pct float_100).

(** A decimal literal [n / 10^k] of the source, e.g. [0.60]: the double
    nearest to it. *)
Definition float_literal (n : Z) (d : Z) : spec_float :=
  SFdiv prec emax (exact_float n) (exact_float d).

(** *** The tracker and the hooks *)

(** [getattr(usage, name, 0)]: only objects carry the token attributes. *)
Definition getattr0 (v : pyval) (name : string) : pyval :=
  match v with
  | PObj attrs => dict_get attrs name (PInt 0)
  | _ => PInt 0
  end.

(** [_extract_tokens] *)
Definition _extract_tokens (usage : pyval) : pyval * pyval :=
  match usage with
  | PNone => (PInt 0, PInt 0)
  | PDict kvs =>
      (or0 (dict_get kvs "input_tokens" (PInt 0)),
       or0 (dict_get kvs "output_tokens" (PInt 0)))
  | _ =>
      (or0 (getattr0 usage "input_tokens"),
       or0 (getattr0 usage "output_tokens"))
  end.

(** [TokenTracker].  Every attribute keeps the Python value assigned to
    it; [turn_count] is only ever incremented from [0]. *)
Record TokenTracker : Type := mkTracker {
  context_window : pyval;
  soft_threshold : pyval;
  hard_threshold : pyval;
  latest_input_tokens : pyval;
  cumulative_output_tokens : pyval;
  turn_count : Z
}.

(** [TokenTracker.__init__(config)]: defaults [200_000], [0.60], [0.80]. *)
Definition init_tracker (config : list (string * pyval)) : TokenTracker :=
  {| context_window := dict_get config "context_window" (PInt 200000);
     soft_threshold := dict_get config "soft_threshold" (PFloat (float_literal 60 100));
     hard_threshold := dict_get config "hard_threshold" (PFloat (float_literal 80 100));
     latest_input_tokens := PInt 0;
     cumulative_output_tokens := PInt 0;
     turn_count := 0 |}.

(** [TokenTracker.usage_pct]: [0.0] when [self.context_window <= 0], the
    quotient [latest_input_tokens / context_window] otherwise; [None]
    when either step raises. *)
Definition usage_pct (t : TokenTracker) : option spec_float :=
  match py_le (context_window t) (PInt 0) with
  | None => None
  | Some true => Some (S754_zero false)
  | Some false => py_truediv (latest_input_tokens t) (context_window t)
  end.

(** [HookResult]; fields not passed by the code are [None] / [false]. *)
Record HookResult : Type := mkHookResult {
  action : string;
  context_injection : option string;
  context_injection_role : option string;
  ephemeral : bool;
  user_message : option string;
  user_message_level : option string
}.

Definition continue_result : HookResult :=
  {| action := "continue"; context_injection := None;
     context_injection_role := None; ephemeral := false;
     user_message := None; user_message_level := None |}.

(** [_handle_response].  The body runs inside [try]; an exception at
    [input_tokens > 0] leaves the tracker untouched, one at
    [cumulative_output_tokens += output_tokens] happens after
    [latest_input_tokens] was already overwritten.  The debug log line
    evaluates [usage_pct] after all updates, so a failure there changes
    nothing.  The handler returns [continue] in every case. *)
Definition _handle_response (t : TokenTracker) (data : list (string * pyval))
  : TokenTracker * HookResult :=
  let usage := dict_get data "usage" PNone in
  let '(input_tokens, output_tokens) := _extract_tokens usage in
  let t' :=
    match py_lt (PInt 0) input_tokens with
    | None => t
    | Some positive =>
        let t1 := if positive
                  then {| context_window := context_window t;
                          soft_threshold := soft_threshold t;
                          hard_threshold := hard_threshold t;
                          latest_input_tokens := input_tokens;
                          cumulative_output_tokens := cumulative_output_tokens t;
                          turn_count := turn_count t |}
                  else t in
        match py_add (cumulative_output_tokens t1) output_tokens with
        | None => t1
        | Some total =>
            {| context_window := context_window t1;
               soft_threshold := soft_threshold t1;
               hard_threshold := hard_threshold t1;
               latest_input_tokens := latest_input_tokens t1;
               cumulative_output_tokens := total;
               turn_count := (turn_count t1 + 1)%Z |}
        end
    end in
  (t', continue_result).

Definition inject (msg : string) (umsg : option (string * string)) : HookResult :=
  {| action := "inject_context"; context_injection := Some msg;
     context_injection_role := Some "system"; ephemeral := true;
     user_message := option_map fst umsg;
     user_message_level := option_map snd umsg |}.

Definition info_msg (pct_int turn : Z) : string :=
  "[Session Guardian: " ++ string_of_Z pct_int ++ "% context used, turn "
  ++ string_of_Z turn ++ "]".

Definition soft_msg (pct_int : Z) : string :=
  "[Session Guardian: " ++ string_of_Z pct_int ++ "% context " ++ "—"
  ++ " save progress with session_state tool now. Continue working but be concise.]".

Definition soft_user_msg (pct_int : Z) : string :=
  "Session Guardian: " ++ string_of_Z pct_int ++ "% context used " ++ "—"
  ++ " saving progress recommended".

Definition hard_msg (pct_int : Z) : string :=
  "[Session Guardian: " ++ string_of_Z pct_int ++ "% context " ++ "—"
  ++ " HANDOFF REQUIRED. Save state immediately and tell the user to start a new session.]".

Definition hard_user_msg (pct_int : Z) : string :=
  "Session Guardian: " ++ string_of_Z pct_int ++ "% context used " ++ "—"
  ++ " handoff required!".

(** The body of the [try] in [_handle_request]; [None] when it raises. *)
Definition request_body (t : TokenTracker) : option HookResult :=
  match usage_pct t with
  | None => None
  | Some pct =>
      match percent pct with
      | None => None
      | Some pct_int =>
          let turn := turn_count t in
          match py_lt (PFloat pct) (soft_threshold t) with
          | None => None
          | Some true => Some (inject (info_msg pct_int turn) None)
          | Some false =>
              match py_lt (PFloat pct) (hard_threshold t) with
              | None => None
              | Some true =>
                  Some (inject (soft_msg pct_int) (Some (soft_user_msg pct_int, "warning")))
              | Some false =>
                  Some (inject (hard_msg pct_int) (Some (hard_user_msg pct_int, "error")))
              end
          end
      end
  end.

(** [_handle_request]: the [except] turns any failure into [continue]. *)
Definition _handle_request (t : TokenTracker) : HookResult :=
  match request_body t with
  | Some r => r
  | None => continue_result
  end.

(** A run of response events, as the host delivers them. *)
Definition run_responses (t : TokenTracker) (evs : list (list (string * pyval)))
  : TokenTracker :=
  fold_left (fun acc d => fst (_handle_response acc d)) evs t.

Definition usage_event (input output : Z) : list (string * pyval) :=
  [("usage", PDict [("input_tokens", PInt input); ("output_tokens", PInt output)])].

End Guardian.

(** ** Session-state tool *)
Module StateTool.

(** JSON documents as the tool receives them and [json] writes them.  The
    input schema only carries strings, arrays of strings and objects;
    numbers are integers (the schema [version]). *)
Inductive json : Type :=
| JNull
| JBool (b : bool)
| JInt (z : Z)
| JStr (s : string)
| JArr (items : list json)
| JObj (kvs : list (string * json)).

(** Python truthiness of a decoded JSON value. *)
Definition truthy (j : json) : bool :=
  match j with
  | JNull => false
  | JBool b => b
  | JInt z => negb (Z.eqb z 0)
  | JStr s => negb (String.eqb s "")
  | JArr l => match l with [] => false | _ => true end
  | JObj kvs => match kvs with [] => false | _ => true end
  end.

(** *** [json.dumps(obj, indent=2)] *)

Definition hex_digit (n : Z) : ascii :=
  if (n <? 10)%Z then ascii_of_nat (48 + Z.to_nat n)
  else ascii_of_nat (87 + Z.to_nat n).

(** The double-quote character. *)
Definition dq : string := String (ascii_of_nat 34) "".

(** One character of a string literal with [ensure_ascii=True]: the
    characters of a Rocq string are read as code points 0..255. *)
Definition escape_char (c : ascii) : string :=
  let n := Z.of_nat (nat_of_ascii c) in
  if (n =? 34)%Z then "\" ++ dq
  else if (n =? 92)%Z then "\\"
  else if (n =? 10)%Z then "\n"
  else if (n =? 13)%Z then "\r"
  else if (n =? 9)%Z then "\t"
  else if (n =? 8)%Z then "\b"
  else if (n =? 12)%Z then "\f"
  else if ((n <? 32) || (126 <? n))%Z
  then "\u00" ++ String (hex_digit (n / 16)) (String (hex_digit (n mod 16)) "")
  else String c "".

Fixpoint escape (s : string) : string :=
  match s with
  | EmptyString => ""
  | String c rest => escape_char c ++ escape rest
  end.

Definition quote (s : string) : string := dq ++ escape s ++ dq.

Definition newline : string := String (ascii_of_nat 10) "".

Fixpoint indent (n : nat) : string :=
  match n with O => "" | S k => "  " ++ indent k end.

(** Item separator [","] and key separator [": "], as with [indent=2]. *)
Fixpoint dumps_at (lvl : nat) (j : json) {struct j} : string :=
  match j with
  | JNull => "null"
  | JBool b => if b then "true" else "false"
  | JInt z => string_of_Z z
  | JStr s => quote s
  | JArr [] => "[]"
  | JArr items =>
      "[" ++ newline ++ indent (S lvl)
      ++ String.concat ("," ++ newline ++ indent (S lvl))
           (map (dumps_at (S lvl)) items)
      ++ newline ++ indent lvl ++ "]"
  | JObj [] => "{}"
  | JObj kvs =>
      "{" ++ newline ++ indent (S lvl)
      ++ String.concat ("," ++ newline ++ indent (S lvl))
           (map (fun '(k, v) => quote k ++ ": " ++ dumps_at (S lvl) v) kvs)
      ++ newline ++ indent lvl ++ "}"
  end.

Definition dumps (j : json) : string := dumps_at 0 j.

(** *** UTC time: [now] is counted in microseconds since the epoch. *)

Definition us_per_second : Z := 1000000.
Definition us_per_day : Z := 86400 * us_per_second.

(** Proleptic Gregorian (year, month, day) of a day number since 1970-01-01. *)
Definition civil_from_days (days : Z) : Z * Z * Z :=
  let z := (days + 719468)%Z in
  let era := (z / 146097)%Z in
  let doe := (z - era * 146097)%Z in
  let yoe := ((doe - doe / 1460 + doe / 36524 - doe / 146096) / 365)%Z in
  let doy := (doe - (365 * yoe + yoe / 4 - yoe / 100))%Z in
  let mp := ((5 * doy + 2) / 153)%Z in
  let d := (doy - (153 * mp + 2) / 5 + 1)%Z in
  let m := if (mp <? 10)%Z then (mp + 3)%Z else (mp - 9)%Z in
  let y := (yoe + era * 400)%Z in
  ((if (m <=? 2)%Z then y + 1 else y)%Z, m, d).

Fixpoint zeros (n : nat) : string :=
  match n with O => "" | S k => "0" ++ zeros k end.

(** Zero-padded decimal field, as [%Y], [%m], [%d], ... print it. *)
Definition pad (width : nat) (z : Z) : string :=
  let s := string_of_Z z in zeros (width - String.length s) ++ s.

Definition date_part (now : Z) : string :=
  let '(y, m, d) := civil_from_days (now / us_per_day) in
  pad 4 y ++ "-" ++ pad 2 m ++ "-" ++ pad 2 d.

Definition clock (now : Z) (sep : string) : string :=
  let secs := ((now mod us_per_day) / us_per_second)%Z in
  pad 2 (secs / 3600) ++ sep ++ pad 2 ((secs mod 3600) / 60) ++ sep ++ pad 2 (secs mod 60).

(** [now.strftime("%Y-%m-%dT%H-%M-%S")].  [now] is a reading of
    [datetime.now(timezone.utc)]: from the epoch on (years 1970 and
    later), where [%Y] has four digits. *)
Definition strftime_name (now : Z) : string :=
  date_part now ++ "T" ++ clock now "-".

(** [now.isoformat()] of an aware UTC datetime. *)
Definition isoformat (now : Z) : string :=
  let us := (now mod us_per_second)%Z in
  date_part now ++ "T" ++ clock now ":"
  ++ (if (us =? 0)%Z then "" else "." ++ pad 6 us) ++ "+00:00".

(** *** The state directory *)

(** How [json.loads(path.read_text(encoding="utf-8"))] fails on a file:
    with an exception [_load_state] catches ([json.JSONDecodeError] or
    [OSError], e.g. a permission error), or with one it does not (the
    [UnicodeDecodeError] of bytes that are not UTF-8, the [ValueError] of
    an integer literal past the digit limit). *)
Inductive read_error : Type :=
| ReadCaught (msg : string)
| ReadUncaught (msg : string).

(** What a directory entry holds: a file and what reading it gives, or a
    subdirectory. *)
Inductive contents : Type :=
| Parsed (doc : json)
| Unreadable (err : read_error)
| Directory.

(** A directory entry: its name, contents, byte size ([st_size]),
    modification time ([st_mtime] rounded to microseconds, as
    [datetime.fromtimestamp] rounds it) and whether [unlink] on it
    succeeds (a subdirectory is never unlinked).  Names are kept as their
    bytes; for names that are valid UTF-8 the byte order is the order
    Python sorts the decoded names in.  Symbolic links and failures of
    [stat] are not modelled. *)
Record entry : Type := mkEntry {
  fname : string;
  fcontent : contents;
  fsize : Z;
  fmtime : Z;
  unlink_ok : bool
}.

(** What is at [.session-state]: nothing, something that is not a
    directory, or a directory with its entries. *)
Inductive store : Type :=
| NoDir
| NotDir
| Dir (files : list entry).

(** The entries [state_dir.glob] can list. *)
Definition dir_files (st : store) : list entry :=
  match st with Dir fs => fs | _ => [] end.

Definition STATE_DIR : string := ".session-state".
Definition SCHEMA_VERSION : Z := 1.
Definition PRUNE_DAYS : Z := 7.

Definition path_of (name : string) : string := STATE_DIR ++ "/" ++ name.

Definition ends_with (suffix s : string) : bool :=
  (String.length suffix <=? String.length s)%nat
  && String.eqb (substring (String.length s - String.length suffix)
                           (String.length suffix) s) suffix.

(** [glob("*.json")]: every entry whose name ends in [.json], hidden ones
    and subdirectories included. *)
Definition is_json (e : entry) : bool := ends_with ".json" (fname e).

Definition is_directory (e : entry) : bool :=
  match fcontent e with Directory => true | _ => false end.

(** An entry of that name is a subdirectory. *)
Definition dir_at (files : list entry) (name : string) : bool :=
  existsb (fun e => String.eqb (fname e) name && is_directory e) files.

Fixpoint insert_desc (e : entry) (l : list entry) : list entry :=
  match l with
  | [] => [e]
  | x :: rest =>
      if String.leb (fname x) (fname e) then e :: l else x :: insert_desc e rest
  end.

(** [sorted(state_dir.glob("*.json"), reverse=True)] *)
Definition sorted_json_desc (files : list entry) : list entry :=
  fold_right insert_desc [] (filter is_json files).

(** [filepath.write_text(text)] on a path that is not a subdirectory:
    overwrite the file of that name or create it. *)
Fixpoint write_file (files : list entry) (name : string) (c : contents)
    (size mtime : Z) : list entry :=
  match files with
  | [] => [mkEntry name c size mtime true]
  | e :: rest =>
      if String.eqb (fname e) name
      then mkEntry name c size mtime (unlink_ok e) :: rest
      else e :: write_file rest name c size mtime
  end.

(** Exceptions the tool raises.  [ToolResult]'s [error] field takes a
    dict, so [ToolResult(error=<str>)] raises pydantic's [ValidationError]
    instead of returning: [ValidationError e] is that exception for the
    string [e].  [execute]'s [except Exception] then builds
    [ToolResult(error=f"session_state {operation} failed: {exc}")], which
    raises again: [ExecuteValidationError operation cause]. *)
Inductive exc : Type :=
| ValidationError (error : string)
| FileExistsError (path : string)
| IsADirectoryError (path : string)
| ReadFailure (msg : string)
| ExecuteValidationError (operation : string) (cause : exc).

(** How an operation ends: [ToolResult(output=text)] returned, or an
    exception raised. *)
Inductive outcome : Type :=
| Output (text : string)
| Raised (e : exc).

(** [datetime.min] (0001-01-01) in microseconds since the epoch:
    [datetime.fromtimestamp] raises [ValueError] before it. *)
Definition min_mtime : Z := -62135596800000000.

(** [_prune_old_states(state_dir, now)].  Each [*.json] entry whose mtime
    is before [now - PRUNE_DAYS] is unlinked and counted; an exception of
    [datetime.fromtimestamp] or [unlink] is swallowed by
    [except Exception: pass], the entry stays, and the loop goes on.  The
    iterations are independent, so the loop is written as a recursion over
    the listing. *)
Fixpoint _prune_old_states (files : list entry) (now : Z) : list entry * Z :=
  match files with
  | [] => ([], 0%Z)
  | f :: rest =>
      let '(kept, pruned) := _prune_old_states rest now in
      if is_json f && (min_mtime <=? fmtime f)%Z
         && (fmtime f <? now - PRUNE_DAYS * us_per_day)%Z
         && unlink_ok f && negb (is_directory f)
      then (kept, (pruned + 1)%Z)
      else (f :: kept, pruned)
  end.

Definition REQUIRED : list string := ["summary"; "accomplished"; "remaining"].

(** [missing = [f for f in (...) if not input.get(f)]] *)
Definition missing_fields (input : list (string * json)) : list string :=
  filter (fun f => negb (truthy (dict_get input f JNull))) REQUIRED.

(** The state document built by [_save_state]. *)
Definition state_doc (input : list (string * json)) (now : Z)
    (session_id : option string) : json :=
  JObj ([("version", JInt SCHEMA_VERSION);
         ("timestamp", JStr (isoformat now));
         ("summary", dict_get input "summary" JNull);
         ("accomplished", dict_get input "accomplished" JNull);
         ("remaining", dict_get input "remaining" JNull)]
        ++ (if truthy (dict_get input "decisions" JNull)
            then [("decisions", dict_get input "decisions" JNull)] else [])
        ++ (if truthy (dict_get input "context" JNull)
            then [("context", dict_get input "context" JNull)] else [])
        ++ (match session_id with
            | Some s => if String.eqb s "" then [] else [("session_id", JStr s)]
            | None => []
            end)).

Definition save_message (filepath : string) (pruned : Z) : string :=
  "State saved to " ++ filepath
  ++ (if (pruned =? 0)%Z then ""
      else " (pruned " ++ string_of_Z pruned ++ " old file"
           ++ (if (pruned =? 1)%Z then "" else "s") ++ ")").

(** [_save_state(input)] at clock [now], with [_get_session_id()] returning
    [session_id].  [mkdir(parents=True, exist_ok=True)] raises
    [FileExistsError] when [.session-state] is not a directory;
    [write_text] raises [IsADirectoryError] when the snapshot's name is a
    subdirectory.  The written file gets [now] as its mtime.  Failures of
    the file system itself (permissions, a full disk) are not modelled. *)
Definition _save_state (session_id : option string) (now : Z) (st : store)
    (input : list (string * json)) : store * outcome :=
  match missing_fields input with
  | _ :: _ =>
      (st, Raised (ValidationError
                     ("save_state requires: " ++ String.concat ", " (missing_fields input))))
  | [] =>
      match st with
      | NotDir => (st, Raised (FileExistsError STATE_DIR))
      | _ =>
          let files := dir_files st in
          let filename := strftime_name now ++ ".json" in
          if dir_at files filename
          then (st, Raised (IsADirectoryError (path_of filename)))
          else
            let state := state_doc input now session_id in
            let text := dumps state ++ newline in
            let files1 := write_file files filename (Parsed state)
                            (Z.of_nat (String.length text)) now in
            let '(files2, pruned) := _prune_old_states files1 now in
            (Dir files2, Output (save_message (path_of filename) pruned))
      end
  end.

Definition list_entry_line (f : entry) : string :=
  fname f ++ " (" ++ string_of_Z (fsize f) ++ " bytes)".

(** [_list_states()] *)
Definition _list_states (st : store) : outcome :=
  match st with
  | Dir fs =>
      match sorted_json_desc fs with
      | [] => Output "No state files found."
      | files =>
          Output ("Found " ++ string_of_Z (Z.of_nat (List.length files))
                  ++ " state file(s):" ++ newline
                  ++ String.concat newline (map list_entry_line files))
      end
  | _ => Output "No session state directory found."
  end.

(** *** [execute]: the operation dispatch *)

(** Printable code points 0..255 for [str.isprintable]. *)
Definition printable (n : Z) : bool :=
  (((32 <=? n) && (n <=? 126)) || ((161 <=? n) && (n <=? 255) && negb (n =? 173)))%Z.

Fixpoint has_char (n : Z) (s : string) : bool :=
  match s with
  | EmptyString => false
  | String c rest => (Z.of_nat (nat_of_ascii c) =? n)%Z || has_char n rest
  end.

(** The characters of [repr(s)] between the quotes. *)
Fixpoint repr_body (quote_char : Z) (s : string) : string :=
  match s with
  | EmptyString => ""
  | String c rest =>
      let n := Z.of_nat (nat_of_ascii c) in
      (if ((n =? quote_char) || (n =? 92))%Z then String (ascii_of_nat 92) (String c "")
       else if (n =? 9)%Z then "\t"
       else if (n =? 10)%Z then "\n"
       else if (n =? 13)%Z then "\r"
       else if printable n then String c ""
       else "\x" ++ String (hex_digit (n / 16)) (String (hex_digit (n mod 16)) ""))
      ++ repr_body quote_char rest
  end.

(** [repr(s)] of a [str]: single quotes unless [s] has a single quote and
    no double quote. *)
Definition repr_str (s : string) : string :=
  let q := if has_char 39 s && negb (has_char 34 s) then 34%Z else 39%Z in
  let qs := String (ascii_of_nat (Z.to_nat q)) "" in
  qs ++ repr_body q s ++ qs.

(** [repr(v)] of a decoded JSON value. *)
Fixpoint py_repr (j : json) : string :=
  match j with
  | JNull => "None"
  | JBool b => if b then "True" else "False"
  | JInt z => string_of_Z z
  | JStr s => repr_str s
  | JArr items => "[" ++ String.concat ", " (map py_repr items) ++ "]"
  | JObj kvs =>
      "{" ++ String.concat ", " (map (fun '(k, v) => repr_str k ++ ": " ++ py_repr v) kvs) ++ "}"
  end.

(** [f"{operation}"], i.e. [str(operation)]. *)
Definition py_str (j : json) : string :=
  match j with JStr s => s | _ => py_repr j end.

(** [operation == name] *)
Definition is_op (j : json) (name : string) : bool :=
  match j with JStr s => String.eqb s name | _ => false end.

(** [_load_state()].  Reading the newest [*.json] entry: a decoded
    document is returned as [json.dumps(content, indent=2)]; a caught read
    or decode error, a subdirectory's [IsADirectoryError] among them, goes
    to [ToolResult(error=...)], which raises; other errors propagate. *)
Definition _load_state (st : store) : outcome :=
  match st with
  | Dir fs =>
      match sorted_json_desc fs with
      | [] => Output "No state files found. This appears to be a fresh session."
      | latest :: _ =>
          let path := path_of (fname latest) in
          match fcontent latest with
          | Parsed content => Output (dumps content)
          | Unreadable (ReadCaught msg) =>
              Raised (ValidationError ("Failed to read " ++ path ++ ": " ++ msg))
          | Directory =>
              Raised (ValidationError ("Failed to read " ++ path
                        ++ ": [Errno 21] Is a directory: " ++ repr_str path))
          | Unreadable (ReadUncaught msg) => Raised (ReadFailure msg)
          end
      end
  | _ => Output "No session state directory found. This appears to be a fresh session."
  end.

(** The [try] body of [execute]: the dispatch on [operation]. *)
Definition dispatch (session_id : option string) (now : Z) (st : store)
    (input : list (string * json)) : store * outcome :=
  let operation := dict_get input "operation" JNull in
  if is_op operation "save_state" then _save_state session_id now st input
  else if is_op operation "load_state" then (st, _load_state st)
  else if is_op operation "list_states" then (st, _list_states st)
  else (st, Raised (ValidationError ("Unknown operation: " ++ py_str operation
                                     ++ ". Use save_state, load_state, or list_states."))).

(** [SessionStateTool.execute(input)]: any exception of the body is
    caught, and the [ToolResult(error=...)] built in the handler raises in
    turn. *)
Definition execute (session_id : option string) (now : Z) (st : store)
    (input : list (string * json)) : store * outcome :=
  let operation := dict_get input "operation" JNull in
  let '(st', r) := dispatch session_id now st input in
  match r with
  | Output text => (st', Output text)
  | Raised e => (st', Raised (ExecuteValidationError (py_str operation) e))
  end.

End StateTool.


(** ** Notions used by the statements *)
Import Guardian StateTool.


(** The two values [_extract_tokens] returns for a response event. *)
Definition extracted_input (data : list (string * pyval)) : pyval :=
  fst (_extract_tokens (dict_get data "usage" PNone)).

Definition extracted_output (data : list (string * pyval)) : pyval :=
  snd (_extract_tokens (dict_get data "usage" PNone)).

(** The exact value of a value that is a finite number; [None] for a
    non-number, an infinity or NaN. *)
Definition num_value (v : pyval) : option Q :=
  match as_num v with
  | Some n => match num_xreal n with XFin q => Some q | _ => None end
  | None => None
  end.

(** The event's input-token count, when it is greater than [0]. *)
Definition positive_input (data : list (string * pyval)) : option pyval :=
  let i := extracted_input data in
  match py_lt (PInt 0) i with Some true => Some i | _ => None end.

(** The event's output-token count, when it is an [int] (or a [bool]). *)
Definition int_output (data : list (string * pyval)) : option Z :=
  match as_num (extracted_output data) with Some (NInt z) => Some z | _ => None end.

(** The input-token count is a number and the output-token count an [int]. *)
Definition int_output_event (data : list (string * pyval)) : bool :=
  match as_num (extracted_input data), int_output data with
  | Some _, Some _ => true
  | _, _ => false
  end.

Fixpoint sum_outputs (evs : list (list (string * pyval))) : Z :=
  match evs with
  | [] => 0
  | d :: rest => (match int_output d with Some z => z | None => 0 end + sum_outputs rest)%Z
  end.

(** A double that is not below zero: a zero, a positive number, [+inf] or
    NaN. *)
Definition not_negative (f : spec_float) : bool :=
  match f with
  | S754_finite s _ _ | S754_infinity s => negb s
  | _ => true
  end.

(** A number that is not below zero. *)
Definition nonneg_num (n : pynum) : Prop :=
  match n with
  | NInt z => (0 <= z)%Z
  | NFloat f => not_negative f = true
  end.

(** What [latest_input_tokens] can hold: the initial [0], or a value
    greater than [0]. *)
Definition latest_ok (v : pyval) : Prop := v = PInt 0 \/ py_lt (PInt 0) v = Some true.

(** An entry [_prune_old_states] removes at clock [now]: a [*.json] file
    whose mtime [datetime] can represent and is older than
    [now - 7 days], and whose [unlink] succeeds. *)
Definition pruneable (now : Z) (f : entry) : bool :=
  is_json f && (min_mtime <=? fmtime f)%Z && (fmtime f <? now - PRUNE_DAYS * us_per_day)%Z
  && unlink_ok f && negb (is_directory f).

Definition snapshot_name (now : Z) : string := strftime_name now ++ ".json".

(** The entry [_save_state] writes. *)
Definition saved_entry (session_id : option string) (now : Z)
    (input : list (string * json)) : entry :=
  let state := state_doc input now session_id in
  mkEntry (snapshot_name now) (Parsed state)
    (Z.of_nat (String.length (dumps state ++ newline))) now true.



(** *** Snapshot names and time *)

(** [civil_from_days] within one 400-year cycle: the same computation on a
    day-of-era [doe], with the era's year offset left out. *)
Definition doe_civil (doe : Z) : Z * Z * Z :=
  let yoe := ((doe - doe / 1460 + doe / 36524 - doe / 146096) / 365)%Z in
  let doy := (doe - (365 * yoe + yoe / 4 - yoe / 100))%Z in
  let mp := ((5 * doy + 2) / 153)%Z in
  let d := (doy - (153 * mp + 2) / 5 + 1)%Z in
  let m := if (mp <? 10)%Z then (mp + 3)%Z else (mp - 9)%Z in
  ((if (m <=? 2)%Z then yoe + 1 else yoe)%Z, m, d).

(** A date as the number [yyyymmdd]. *)
Definition civil_key (ymd : Z * Z * Z) : Z :=
  let '(y, m, d) := ymd in (y * 10000 + m * 100 + d)%Z.

Definition fields_ok (ymd : Z * Z * Z) : bool :=
  let '(y, m, d) := ymd in ((1 <=? m) && (m <=? 12) && (1 <=? d) && (d <=? 31))%Z.

(** Check, from day-of-era [i] with date [a] on, that the next [n] days
    have increasing dates with a valid month and day. *)
Fixpoint cycle_ok (n : nat) (i : Z) (a : Z * Z * Z) : bool :=
  match n with
  | O => true
  | S k =>
      let b := doe_civil (i + 1) in
      (civil_key a <? civil_key b)%Z && fields_ok b && cycle_ok k (i + 1) b
  end.

(** The last decimal digit of [x] as a character. *)
Definition digit (x : Z) : ascii := ascii_of_nat (48 + Z.to_nat (x mod 10)).

(** The last [w] decimal digits of [x], most significant first. *)
Fixpoint fixed (w : nat) (x : Z) : string :=
  match w with
  | O => ""
  | S k => fixed k (x / 10) ++ String (digit x) ""
  end.

(** Check that [pad w] agrees with [fixed w] on [n] numbers from [i] on. *)
Fixpoint pads_ok (w n : nat) (i : Z) : bool :=
  match n with
  | O => true
  | S k => String.eqb (pad w i) (fixed w i) && pads_ok w k (i + 1)
  end.

(** A time of day given in seconds, as the number [hhmmss]. *)
Definition hms (t : Z) : Z := ((t / 3600) * 10000 + ((t mod 3600) / 60) * 100 + t mod 60)%Z.

(** The fields of [strftime_name now] as one number [yyyymmddhhmmss]. *)
Definition name_key (now : Z) : Z :=
  (civil_key (civil_from_days (now / us_per_day)) * 1000000
   + hms ((now mod us_per_day) / us_per_second))%Z.

(** [datetime.max] (9999-12-31 23:59:59.999999) in microseconds since the
    epoch. *)
Definition max_now : Z := 253402300799999999.

(** A snapshot name written from its fields. *)
Definition fields_name (y m d hh mm ss : Z) : string :=
  fixed 4 y ++ "-" ++ fixed 2 m ++ "-" ++ fixed 2 d ++ "T"
  ++ fixed 2 hh ++ "-" ++ fixed 2 mm ++ "-" ++ fixed 2 ss ++ ".json".

(** *** Sequences of tool calls *)

(** A call of the tool: the session id [_get_session_id()] returns, the
    clock, and the input. *)
Definition call_time (c : option string * Z * list (string * json)) : Z :=
  let '(_, now, _) := c in now.

(** A [save_state] call with all required fields, at a time [datetime]
    can represent. *)
Definition valid_save_call (c : option string * Z * list (string * json)) : Prop :=
  let '(_, now, input) := c in
  is_op (dict_get input "operation" JNull) "save_state" = true /\
  missing_fields input = [] /\ (0 <= now <= max_now)%Z.

(** The directory after the calls, made one after the other. *)
Fixpoint run_calls (st : store) (calls : list (option string * Z * list (string * json))) : store :=
  match calls with
  | [] => st
  | (sid, now, input) :: rest => run_calls (fst (execute sid now st input)) rest
  end.

(** [.session-state] is a directory or absent, and every [*.json] entry in
    it has a name sorting before [name]. *)
Definition before (st : store) (name : string) : Prop :=
  st <> NotDir /\
  forall f, In f (dir_files st) -> is_json f = true -> String.ltb (fname f) name = true.

(** Newest-first order of snapshot names. *)
Definition newer_or_same (a b : entry) : Prop := String.leb (fname b) (fname a) = true.

(** [m] is the [*.json] file whose name sorts last in the listing. *)
Definition is_latest (files : list entry) (m : entry) : Prop :=
  In m files /\ is_json m = true /\
  forall f, In f files -> is_json f = true ->
            f = m \/ String.ltb (fname f) (fname m) = true.

(** *** [json.loads]: the decoder of the [json] module (its C scanner) *)



(** The value of a hexadecimal digit of a [\uXXXX] escape. *)
Definition hex_val (c : ascii) : option nat :=
  let n := nat_of_ascii c in
  (if (48 <=? n) && (n <=? 57) then Some (n - 48)
   else if (97 <=? n) && (n <=? 102) then Some (n - 87)
   else if (65 <=? n) && (n <=? 70) then Some (n - 55)
   else None)%nat.

(** The character a backslash escape other than [\u] stands for: quote,
    backslash and slash stand for themselves, [b f n r t] for the control
    characters 8, 12, 10, 13, 9. *)
Definition backslash (e : ascii) : option ascii :=
  let n := nat_of_ascii e in
  (if (n =? 34) || (n =? 92) || (n =? 47) then Some e
   else if Nat.eqb n 98 then Some (ascii_of_nat 8)
   else if Nat.eqb n 102 then Some (ascii_of_nat 12)
   else if Nat.eqb n 110 then Some (ascii_of_nat 10)
   else if Nat.eqb n 114 then Some (ascii_of_nat 13)
   else if Nat.eqb n 116 then Some (ascii_of_nat 9)
   else None)%nat.

Definition cons_char (c : ascii) (r : option (string * string)) : option (string * string) :=
  match r with
  | Some (x, rest) => Some (String c x, rest)
  | None => None
  end.

(** [scanstring(s, end, strict=True)]: the body of a string literal whose
    opening quote has been read; the decoded text and what follows the
    closing quote.  Characters are the code points 0..255: a [\uXXXX]
    escape above 255 (surrogate pairs among them) has no character here
    and is read as a failure. *)
Fixpoint scanstring (s : string) : option (string * string) :=
  match s with
  | EmptyString => None
  | String c rest =>
      let n := nat_of_ascii c in
      if Nat.eqb n 34 then Some ("", rest)
      else if Nat.eqb n 92 then
        match rest with
        | EmptyString => None
        | String e rest2 =>
            if Nat.eqb (nat_of_ascii e) 117 then
              match rest2 with
              | String h1 (String h2 (String h3 (String h4 rest3))) =>
                  match hex_val h1, hex_val h2, hex_val h3, hex_val h4 with
                  | Some a, Some b, Some c', Some d =>
                      let u := (((a * 16 + b) * 16 + c') * 16 + d)%nat in
                      if Nat.leb u 255 then cons_char (ascii_of_nat u) (scanstring rest3)
                      else None
                  | _, _, _, _ => None
                  end
              | _ => None
              end
            else match backslash e with
                 | Some ch => cons_char ch (scanstring rest2)
                 | None => None
                 end
        end
      else if Nat.ltb n 32 then None
      else cons_char c (scanstring rest)
  end.


















(** Sample inputs and directory entries. *)

Definition sample_input (remaining : list json) : list (string * json) :=
  [("operation", JStr "save_state"); ("summary", JStr "Wired the guardian");
   ("accomplished", JArr [JStr "tracker"]); ("remaining", JArr remaining)].

Definition old_snapshot : entry :=
  mkEntry "2026-10-01T09-00-00.json" (Parsed (JObj [("version", JInt 1)])) 20
    1790845200000000 true.

Definition recent_snapshot : entry :=
  mkEntry "2026-10-18T09-00-00.json" (Parsed (JObj [("version", JInt 1)])) 20
    1792314000000000 true.

Definition locked_snapshot : entry :=
  mkEntry "2026-09-30T09-00-00.json" (Parsed (JObj [("version", JInt 1)])) 20
    1790758800000000 false.

Definition notes_file : entry :=
  mkEntry "notes.txt" (Unreadable (ReadCaught "not JSON")) 5 1780000000000000 true.

Definition broken_snapshot : entry :=
  mkEntry "2026-10-19T07-00-00.json" (Unreadable (ReadCaught "Expecting value: line 1 column 1 (char 0)"))
    0 1792393200000000 true.


(** *** Timestamps and snapshot names *)

(** The part of [isoformat] after the seconds: the microseconds when there
    are any, then the UTC offset. *)
Definition iso_tail (us : Z) : string :=
  (if (us =? 0)%Z then "" else "." ++ fixed 6 us) ++ "+00:00".

(** An [isoformat] timestamp written from its fields. *)
Definition iso_fields (y m d hh mm ss us : Z) : string :=
  fixed 4 y ++ "-" ++ fixed 2 m ++ "-" ++ fixed 2 d ++ "T"
  ++ fixed 2 hh ++ ":" ++ fixed 2 mm ++ ":" ++ fixed 2 ss ++ iso_tail us.

(** [s] with every colon turned into a dash. *)
Fixpoint colon_to_dash (s : string) : string :=
  match s with
  | EmptyString => EmptyString
  | String c r => String (if Ascii.eqb c ":"%char then "-"%char else c) (colon_to_dash r)
  end.

(** ** Guardian facts *)

Lemma Qltb_true x y : Qltb x y = true <-> x < y.
Proof.
  unfold Qltb. split.
  - intro H. apply Qnot_le_lt. intro Hle.
    apply Qle_bool_iff in Hle. rewrite Hle in H. discriminate.
  - intro H. destruct (Qle_bool y x) eqn:E; [|reflexivity].
    apply Qle_bool_iff in E. exfalso. exact (Qlt_not_le _ _ H E).
Qed.

Lemma Qltb_false x y : Qltb x y = false <-> y <= x.
Proof.
  unfold Qltb. rewrite negb_false_iff. apply Qle_bool_iff.
Qed.

Lemma finite_value_pos (m : positive) (e : Z) : 0 < finite_value false m e.
Proof.
  unfold finite_value. destruct e as [|p|p]; unfold Qlt; cbn -[Z.pow Z.mul]; try lia.
Qed.

Lemma finite_value_neg (m : positive) (e : Z) : finite_value true m e < 0.
Proof.
  pose proof (finite_value_pos m e) as H. unfold finite_value in *.
  destruct e; simpl in *; apply Qopp_lt_compat in H; exact H.
Qed.

Lemma round_aux_not_negative mx ex lx :
  not_negative (binary_round_aux prec emax false mx ex lx) = true.
Proof.
  unfold binary_round_aux.
  destruct (shr_fexp prec emax mx ex lx) as [mrs' e'].
  destruct (shr_fexp prec emax _ e' loc_Exact) as [mrs'' e''].
  destruct (shr_m mrs''); [reflexivity | | reflexivity].
  destruct (e'' <=? emax - prec)%Z; reflexivity.
Qed.

Lemma normalize_not_negative (z e : Z) (b : bool) :
  (0 <= z)%Z -> not_negative (binary_normalize prec emax z e b) = true.
Proof.
  intro H. destruct z as [|p|p]; [reflexivity | | lia].
  unfold binary_normalize, binary_round.
  destruct (shl_align _ _ _) as [mz ez]. apply round_aux_not_negative.
Qed.

Lemma div_not_negative (x y : spec_float) :
  not_negative x = true -> not_negative y = true -> is_zero y = false ->
  not_negative (SFdiv prec emax x y) = true.
Proof.
  intros Hx Hy Hz.
  destruct x as [sx|sx| |sx mx ex]; destruct y as [sy|sy| |sy my ey];
    simpl in Hx, Hy, Hz |- *; try reflexivity; try discriminate;
    try (destruct sx; destruct sy; discriminate || reflexivity).
  destruct sx; [discriminate|]. destruct sy; [discriminate|].
  destruct (SFdiv_core_binary prec emax _ _ _ _) as [[mz ez] lz].
  apply round_aux_not_negative.
Qed.

Lemma mul_not_negative (x y : spec_float) :
  not_negative x = true -> not_negative y = true ->
  not_negative (SFmul prec emax x y) = true.
Proof.
  intros Hx Hy.
  destruct x as [sx|sx| |sx mx ex]; destruct y as [sy|sy| |sy my ey];
    simpl in Hx, Hy |- *; try reflexivity;
    try (destruct sx; destruct sy; discriminate || reflexivity).
  destruct sx; [discriminate|]. destruct sy; [discriminate|].
  apply round_aux_not_negative.
Qed.

Lemma exact_not_negative (z : Z) : (0 <= z)%Z -> not_negative (exact_float z) = true.
Proof. intro H. destruct z; [reflexivity | reflexivity | lia]. Qed.

Lemma float_of_int_not_negative (z : Z) (f : spec_float) :
  (0 <= z)%Z -> float_of_int z = Some f -> not_negative f = true.
Proof.
  intros Hz. unfold float_of_int.
  pose proof (normalize_not_negative z 0 false Hz) as H.
  destruct (binary_normalize prec emax z 0 false); intro E; inversion E; subst; exact H.
Qed.

Lemma to_float_not_negative (n : pynum) (f : spec_float) :
  nonneg_num n -> to_float n = Some f -> not_negative f = true.
Proof.
  destruct n as [z|g]; simpl; intros H E.
  - exact (float_of_int_not_negative z f H E).
  - inversion E; subst; exact H.
Qed.

(** [a / b] of two numbers not below zero is not below zero. *)
Lemma truediv_not_negative (a b : pyval) (na nb : pynum) (f : spec_float) :
  as_num a = Some na -> nonneg_num na -> as_num b = Some nb -> nonneg_num nb ->
  py_truediv a b = Some f -> not_negative f = true.
Proof.
  intros Ha Hna Hb Hnb. unfold py_truediv. rewrite Ha, Hb.
  assert (Hmixed : to_float na = None \/ to_float nb = None \/
                   exists fx fy, to_float na = Some fx /\ to_float nb = Some fy /\
                     not_negative fx = true /\ not_negative fy = true).
  { destruct (to_float na) as [fx|] eqn:Ex; [|left; reflexivity].
    destruct (to_float nb) as [fy|] eqn:Ey; [|right; left; reflexivity].
    right; right. exists fx, fy. repeat split; auto.
    - exact (to_float_not_negative na fx Hna Ex).
    - exact (to_float_not_negative nb fy Hnb Ey). }
  assert (Hgen : match to_float na, to_float nb with
                 | Some fx, Some fy => if is_zero fy then None else Some (SFdiv prec emax fx fy)
                 | _, _ => None
                 end = Some f -> not_negative f = true).
  { destruct Hmixed as [E | [E | [fx [fy [Ex [Ey [Nx Ny]]]]]]].
    - rewrite E. discriminate.
    - rewrite E. destruct (to_float na); discriminate.
    - rewrite Ex, Ey. destruct (is_zero fy) eqn:Z; [discriminate|].
      intro E. inversion E; subst. apply div_not_negative; assumption. }
  destruct na as [x|g]; destruct nb as [y|h]; try exact Hgen.
  simpl in Hna, Hnb. destruct (Z.eqb y 0) eqn:Ey; [discriminate|].
  apply Z.eqb_neq in Ey.
  pose proof (div_not_negative (exact_float x) (exact_float y)
                (exact_not_negative x Hna) (exact_not_negative y Hnb)) as Hd.
  assert (Hyz : is_zero (exact_float y) = false) by (destruct y; [lia | reflexivity | lia]).
  specialize (Hd Hyz).
  destruct (SFdiv prec emax (exact_float x) (exact_float y)); intro E; inversion E; subst; exact Hd.
Qed.

Lemma not_negative_not_lt (f : spec_float) :
  not_negative f = true -> xlt (float_xreal f) (XFin 0) = false.
Proof.
  destruct f as [s|s| |s m e]; simpl; intro H; try reflexivity.
  - destruct s; [discriminate | reflexivity].
  - destruct s; [discriminate|]. apply Qltb_false. apply Qlt_le_weak. apply finite_value_pos.
Qed.

(** [0 < v]: a number greater than zero. *)
Lemma gt0_nonneg (v : pyval) :
  py_lt (PInt 0) v = Some true -> exists n, as_num v = Some n /\ nonneg_num n.
Proof.
  unfold py_lt. simpl. destruct (as_num v) as [n|]; [|discriminate].
  intro H. injection H as H. exists n. split; [reflexivity|].
  destruct n as [z|f]; simpl in H |- *.
  - apply Qltb_true in H. unfold Qlt in H. simpl in H. lia.
  - destruct f as [s|s| |s m e]; simpl in H |- *; try reflexivity.
    + destruct s; [discriminate | reflexivity].
    + destruct s; [|reflexivity]. apply Qltb_true in H.
      pose proof (finite_value_neg m e). exfalso. apply (Qlt_not_le _ _ H). apply Qlt_le_weak. exact H0.
Qed.

(** [not (b <= 0)]: a number greater than zero, or NaN. *)
Lemma not_le0_nonneg (v : pyval) :
  py_le v (PInt 0) = Some false -> exists n, as_num v = Some n /\ nonneg_num n.
Proof.
  unfold py_le. simpl. destruct (as_num v) as [n|]; [|discriminate].
  intro H. injection H as H. exists n. split; [reflexivity|].
  destruct n as [z|f]; simpl in H |- *.
  - apply negb_false_iff in H. apply Qltb_true in H. unfold Qlt in H. simpl in H. lia.
  - destruct f as [s|s| |s m e]; simpl in H |- *; try reflexivity.
    + destruct s; [discriminate | reflexivity].
    + destruct s; [|reflexivity]. apply negb_false_iff in H. apply Qltb_true in H.
      pose proof (finite_value_neg m e). exfalso. apply (Qlt_not_le _ _ H). apply Qlt_le_weak. exact H0.
Qed.

Lemma xlt_xle (x y : xreal) : xlt x y = true -> xle x y = true.
Proof.
  destruct x as [p|s|], y as [q|s'|]; simpl; try discriminate; intro H.
  - apply negb_true_iff. apply Qltb_false. apply Qlt_le_weak. apply Qltb_true. exact H.
  - destruct s'; [discriminate | reflexivity].
  - destruct s; [reflexivity | discriminate].
  - destruct s, s'; simpl in H |- *; congruence.
Qed.

Lemma latest_ok_nonneg (v : pyval) : latest_ok v -> exists n, as_num v = Some n /\ nonneg_num n.
Proof.
  intros [-> | H]; [exists (NInt 0); simpl; split; [reflexivity | lia] | exact (gt0_nonneg v H)].
Qed.

Lemma usage_pct_not_negative (t : TokenTracker) (pct : spec_float) :
  latest_ok (latest_input_tokens t) -> usage_pct t = Some pct -> not_negative pct = true.
Proof.
  intros Hl. unfold usage_pct.
  destruct (py_le (context_window t) (PInt 0)) as [[|]|] eqn:E; intro H.
  - injection H as <-. reflexivity.
  - destruct (latest_ok_nonneg _ Hl) as [na [Ha Hna]].
    destruct (not_le0_nonneg _ E) as [nb [Hb Hnb]].
    exact (truediv_not_negative _ _ na nb pct Ha Hna Hb Hnb H).
  - discriminate.
Qed.

Lemma float_100_value : float_100 = S754_finite false 7036874417766400 (-46).
Proof. reflexivity. Qed.

Lemma trunc_floor (f : spec_float) (x : Q) :
  not_negative f = true -> float_value f = Some x -> float_trunc f = Some (Qfloor x).
Proof.
  destruct f as [s|s| |s m e]; simpl; intros H E; try discriminate.
  - injection E as <-. reflexivity.
  - destruct s; [discriminate|]. injection E as <-. unfold finite_value.
    destruct e as [|p|p]; cbn [float_trunc]; f_equal; try (rewrite Qfloor_Z; reflexivity).
Qed.

Lemma percent_floor (pct : spec_float) (x : Q) :
  not_negative pct = true -> float_value (SFmul prec emax pct float_100) = Some x ->
  percent pct = Some (Qfloor x).
Proof.
  intros H E. unfold percent. apply trunc_floor; [|exact E].
  apply mul_not_negative; [exact H | reflexivity].
Qed.

(** An infinite or NaN [pct]: [int(pct * 100)] raises. *)
Lemma percent_non_finite (pct : spec_float) : float_value pct = None -> percent pct = None.
Proof.
  unfold percent. rewrite float_100_value. destruct pct as [s|s| |s m e]; simpl; intro H; try discriminate; reflexivity.
Qed.

Lemma float_value_xreal (f : spec_float) (p : Q) :
  float_value f = Some p -> float_xreal f = XFin p.
Proof. unfold float_value. destruct (float_xreal f); congruence. Qed.

Lemma num_value_xreal (v : pyval) (q : Q) :
  num_value v = Some q -> exists n, as_num v = Some n /\ num_xreal n = XFin q.
Proof.
  unfold num_value. destruct (as_num v) as [n|]; [|discriminate].
  intro H. exists n. split; [reflexivity|]. destruct (num_xreal n); congruence.
Qed.

(** [pct < v] for a finite [pct] and a finite number [v]. *)
Lemma lt_finite (f : spec_float) (p q : Q) (v : pyval) :
  float_value f = Some p -> num_value v = Some q -> py_lt (PFloat f) v = Some (Qltb p q).
Proof.
  intros Hf Hv. destruct (num_value_xreal v q Hv) as [n [Hn Hx]].
  unfold py_lt. simpl. rewrite Hn, Hx, (float_value_xreal f p Hf). reflexivity.
Qed.

(** One response event on [latest_input_tokens]. *)
Lemma response_latest t d :
  latest_input_tokens (fst (_handle_response t d)) =
  match positive_input d with Some q => q | None => latest_input_tokens t end.
Proof.
  unfold _handle_response, positive_input, extracted_input.
  destruct (_extract_tokens (dict_get d "usage" PNone)) as [i o]; simpl.
  destruct (py_lt (PInt 0) i) as [[|]|]; [| |reflexivity];
    destruct (py_add _ o); reflexivity.
Qed.

Lemma run_responses_app t evs1 evs2 :
  run_responses t (evs1 ++ evs2) = run_responses (run_responses t evs1) evs2.
Proof. unfold run_responses. apply fold_left_app. Qed.

Lemma run_latest_unchanged t evs :
  Forall (fun d => positive_input d = None) evs ->
  latest_input_tokens (run_responses t evs) = latest_input_tokens t.
Proof.
  revert t. induction evs as [|d rest IH]; intros t Hall; [reflexivity|].
  inversion Hall as [|? ? Hd Hrest]; subst.
  change (run_responses t (d :: rest)) with (run_responses (fst (_handle_response t d)) rest).
  rewrite IH by exact Hrest. rewrite response_latest, Hd. reflexivity.
Qed.

Lemma run_latest_ok t evs :
  latest_ok (latest_input_tokens t) -> latest_ok (latest_input_tokens (run_responses t evs)).
Proof.
  revert t. induction evs as [|d rest IH]; intros t H; [exact H|].
  change (run_responses t (d :: rest)) with (run_responses (fst (_handle_response t d)) rest).
  apply IH. rewrite response_latest.
  unfold positive_input. destruct (py_lt (PInt 0) (extracted_input d)) as [[|]|] eqn:E;
    [right; exact E | exact H | exact H].
Qed.

(** One response event on [cumulative_output_tokens] and [turn_count]. *)
Lemma response_counters t d :
  (cumulative_output_tokens (fst (_handle_response t d)), turn_count (fst (_handle_response t d))) =
  match py_lt (PInt 0) (extracted_input d) with
  | None => (cumulative_output_tokens t, turn_count t)
  | Some _ =>
      match py_add (cumulative_output_tokens t) (extracted_output d) with
      | None => (cumulative_output_tokens t, turn_count t)
      | Some total => (total, (turn_count t + 1)%Z)
      end
  end.
Proof.
  unfold _handle_response, extracted_input, extracted_output.
  destruct (_extract_tokens (dict_get d "usage" PNone)) as [i o]. cbn [fst snd].
  destruct (py_lt (PInt 0) i) as [[|]|]; [| |reflexivity];
    cbn [cumulative_output_tokens turn_count];
    destruct (py_add (cumulative_output_tokens t) o); reflexivity.
Qed.

Lemma lt0_some (v : pyval) : as_num v <> None -> exists b, py_lt (PInt 0) v = Some b.
Proof.
  unfold py_lt. simpl. destruct (as_num v); [|contradiction]. intros _. eexists. reflexivity.
Qed.

(** One response event on the other counters, when its output is an [int]. *)
Lemma response_int_output t d (c o : Z) :
  as_num (extracted_input d) <> None -> int_output d = Some o ->
  cumulative_output_tokens t = PInt c ->
  cumulative_output_tokens (fst (_handle_response t d)) = PInt (c + o) /\
  turn_count (fst (_handle_response t d)) = (turn_count t + 1)%Z.
Proof.
  unfold int_output. intros Hi Ho Hc.
  pose proof (response_counters t d) as R.
  destruct (lt0_some _ Hi) as [b Hb]. rewrite Hb in R.
  destruct (as_num (extracted_output d)) as [[z|f]|] eqn:Eo; try discriminate.
  injection Ho as <-.
  unfold py_add in R. rewrite Hc, Eo in R. simpl in R.
  injection R as R1 R2. split; assumption.
Qed.

(** An event whose input or output count is not a number: the body raises
    before [turn_count += 1]. *)
Lemma response_non_number t d :
  as_num (extracted_input d) = None \/ as_num (extracted_output d) = None ->
  cumulative_output_tokens (fst (_handle_response t d)) = cumulative_output_tokens t /\
  turn_count (fst (_handle_response t d)) = turn_count t.
Proof.
  intro H. pose proof (response_counters t d) as R.
  assert (E : match py_lt (PInt 0) (extracted_input d) with
              | None => (cumulative_output_tokens t, turn_count t)
              | Some _ =>
                  match py_add (cumulative_output_tokens t) (extracted_output d) with
                  | None => (cumulative_output_tokens t, turn_count t)
                  | Some total => (total, (turn_count t + 1)%Z)
                  end
              end = (cumulative_output_tokens t, turn_count t)).
  { unfold py_lt, py_add. destruct H as [H | H]; rewrite H.
    - destruct (as_num (PInt 0)); reflexivity.
    - destruct (as_num (PInt 0)), (as_num (extracted_input d)); try reflexivity.
      destruct (as_num (cumulative_output_tokens t)) as [[|]|]; reflexivity. }
  rewrite E in R. injection R as R1 R2. split; assumption.
Qed.

Lemma run_int_outputs t evs (c : Z) :
  cumulative_output_tokens t = PInt c -> forallb int_output_event evs = true ->
  cumulative_output_tokens (run_responses t evs) = PInt (c + sum_outputs evs) /\
  turn_count (run_responses t evs) = (turn_count t + Z.of_nat (List.length evs))%Z.
Proof.
  revert t c. induction evs as [|d rest IH]; intros t c Hc Hall.
  - simpl. rewrite Hc, Z.add_0_r, Z.add_0_r. split; reflexivity.
  - simpl in Hall. apply andb_true_iff in Hall as [Hd Hrest].
    unfold int_output_event in Hd.
    destruct (as_num (extracted_input d)) as [n|] eqn:Ei; [|discriminate].
    destruct (int_output d) as [o|] eqn:Eo; [|discriminate].
    destruct (response_int_output t d c o ltac:(rewrite Ei; discriminate) Eo Hc) as [H1 H2].
    change (run_responses t (d :: rest)) with (run_responses (fst (_handle_response t d)) rest).
    destruct (IH _ _ H1 Hrest) as [G1 G2].
    rewrite G1, G2, H2. simpl sum_outputs. rewrite Eo. simpl List.length. split; [f_equal; lia | lia].
Qed.

Lemma body_inject (t : TokenTracker) (r : HookResult) :
  request_body t = Some r -> action r = "inject_context".
Proof.
  unfold request_body.
  destruct (usage_pct t); [|discriminate].
  destruct (percent s); [|discriminate].
  destruct (py_lt (PFloat s) (soft_threshold t)) as [[|]|]; [| |discriminate].
  - intro H. injection H as <-. reflexivity.
  - destruct (py_lt (PFloat s) (hard_threshold t)) as [[|]|]; intro H; try discriminate;
      injection H as <-; reflexivity.
Qed.

(** One response event on the configuration and the turn counter. *)
Lemma response_config_turn t d :
  context_window (fst (_handle_response t d)) = context_window t /\
  soft_threshold (fst (_handle_response t d)) = soft_threshold t /\
  hard_threshold (fst (_handle_response t d)) = hard_threshold t /\
  (turn_count (fst (_handle_response t d)) = turn_count t \/
   turn_count (fst (_handle_response t d)) = (turn_count t + 1)%Z).
Proof.
  unfold _handle_response.
  destruct (_extract_tokens (dict_get d "usage" PNone)) as [i o]; simpl.
  destruct (py_lt (PInt 0) i) as [[|]|]; [| |auto];
    destruct (py_add _ o); simpl; auto.
Qed.

(** ** Claims about the guardian *)

(** C1.  With finite numeric thresholds [soft < hard], [_handle_request]
    selects one of three bands from the value [p] of the double
    [usage_pct], first match winning: below [soft] an ephemeral system
    injection with the percentage [int(pct * 100)] and the turn count and
    no user message; in [[soft, hard)] an injection and a warning-level
    user message; from [hard] on an injection and an error-level user
    message.  The values [p == soft] and [p == hard] fall in the upper
    band. *)
Theorem request_band_selection (t : TokenTracker) (soft hard p : Q)
  (pct : spec_float) (pct_int : Z)
  (Hsoft : num_value (soft_threshold t) = Some soft)
  (Hhard : num_value (hard_threshold t) = Some hard)
  (Hord : soft < hard)
  (Hpct : usage_pct t = Some pct)
  (Hp : float_value pct = Some p)
  (Hint : percent pct = Some pct_int) :
  (p < soft ->
     _handle_request t = inject (info_msg pct_int (turn_count t)) None) /\
  (soft <= p -> p < hard ->
     _handle_request t = inject (soft_msg pct_int) (Some (soft_user_msg pct_int, "warning"))) /\
  (hard <= p ->
     _handle_request t = inject (hard_msg pct_int) (Some (hard_user_msg pct_int, "error"))) /\
  (p == soft ->
     _handle_request t = inject (soft_msg pct_int) (Some (soft_user_msg pct_int, "warning"))) /\
  (p == hard ->
     _handle_request t = inject (hard_msg pct_int) (Some (hard_user_msg pct_int, "error"))).
Proof.
  pose proof (lt_finite pct p soft _ Hp Hsoft) as Ls.
  pose proof (lt_finite pct p hard _ Hp Hhard) as Lh.
  assert (Hlow : p < soft -> _handle_request t = inject (info_msg pct_int (turn_count t)) None).
  { intro H. unfold _handle_request, request_body. rewrite Hpct, Hint, Ls.
    apply Qltb_true in H. rewrite H. reflexivity. }
  assert (Hmid : soft <= p -> p < hard ->
     _handle_request t = inject (soft_msg pct_int) (Some (soft_user_msg pct_int, "warning"))).
  { intros H1 H2. unfold _handle_request, request_body. rewrite Hpct, Hint, Ls, Lh.
    apply Qltb_false in H1. apply Qltb_true in H2. rewrite H1, H2. reflexivity. }
  assert (Hhigh : hard <= p ->
     _handle_request t = inject (hard_msg pct_int) (Some (hard_user_msg pct_int, "error"))).
  { intro H. unfold _handle_request, request_body. rewrite Hpct, Hint, Ls, Lh.
    assert (H1 : soft <= p) by (apply Qlt_le_weak; exact (Qlt_le_trans _ _ _ Hord H)).
    apply Qltb_false in H1. apply Qltb_false in H. rewrite H1, H. reflexivity. }
  split; [exact Hlow|]. split; [exact Hmid|]. split; [exact Hhigh|]. split.
  - intro Heq. apply Hmid.
    + rewrite Heq. apply Qle_refl.
    + rewrite Heq. exact Hord.
  - intro Heq. apply Hhigh. rewrite Heq. apply Qle_refl.
Qed.

(** The default configuration at 58000 input tokens: [usage_pct] is the
    double nearest [0.29], just below it, and [int(pct * 100)] is [28]; a
    window of [10^17] at [6 * 10^16 - 1] tokens: the quotient rounds to the
    double [0.60] itself, the soft threshold, and the soft band is
    selected. *)
Lemma request_band_selection_witness :
  _handle_request (run_responses (init_tracker []) [usage_event 58000 10])
    = inject (info_msg 28 1) None /\
  _handle_request (run_responses (init_tracker [("context_window", PInt (10 ^ 17))])
                     [usage_event (6 * 10 ^ 16 - 1) 10])
    = inject (soft_msg 60) (Some (soft_user_msg 60, "warning")).
Proof.
  split.
  - refine (proj1 (request_band_selection
                     (run_responses (init_tracker []) [usage_event 58000 10])
                     (5404319552844595 # 9007199254740992) (7205759403792794 # 9007199254740992)
                     (5224175567749775 # 18014398509481984)
                     (S754_finite false 5224175567749775 (-54)) 28 _ _ _ _ _ _) _);
      vm_compute; reflexivity.
  - refine (proj1 (proj2 (proj2 (proj2 (request_band_selection
                     (run_responses (init_tracker [("context_window", PInt (10 ^ 17))])
                        [usage_event (6 * 10 ^ 16 - 1) 10])
                     (5404319552844595 # 9007199254740992) (7205759403792794 # 9007199254740992)
                     (5404319552844595 # 9007199254740992)
                     (S754_finite false 5404319552844595 (-53)) 60 _ _ _ _ _ _)))) _);
      vm_compute; reflexivity.
Defined.

(** C2.  After any run of response events, [latest_input_tokens] is the
    input-token count of the most recent event that reported one greater
    than [0]; events with a zero, absent or non-positive input count
    leave it unchanged. *)
Theorem latest_input_most_recent_positive (t : TokenTracker)
  (pre : list (list (string * pyval))) (d : list (string * pyval)) (q : pyval)
  (post : list (list (string * pyval)))
  (Hd : positive_input d = Some q)
  (Hpost : Forall (fun d' => positive_input d' = None) post) :
  latest_input_tokens (run_responses t (pre ++ d :: post)) = q /\
  latest_input_tokens (run_responses t post) = latest_input_tokens t.
Proof.
  split.
  - rewrite run_responses_app.
    change (run_responses (run_responses t pre) (d :: post))
      with (run_responses (fst (_handle_response (run_responses t pre) d)) post).
    rewrite run_latest_unchanged by exact Hpost.
    rewrite response_latest, Hd. reflexivity.
  - apply run_latest_unchanged. exact Hpost.
Qed.

(** Inputs [1000, 0, 3000]: the final value is [3000], not [4000]. *)
Lemma latest_input_most_recent_positive_witness :
  latest_input_tokens
    (run_responses (init_tracker [])
       [usage_event 1000 50; usage_event 0 75; usage_event 3000 0]) = PInt 3000.
Proof.
  apply (latest_input_most_recent_positive (init_tracker [])
           [usage_event 1000 50; usage_event 0 75] (usage_event 3000 0) (PInt 3000) []).
  - reflexivity.
  - constructor.
Defined.

(** C7.  [_handle_response] returns [continue] for every tracker and every
    event payload; when the extracted input count is not a number the
    comparison [input_tokens > 0] raises and the tracker is left as it
    was.  [_handle_request] returns [continue] exactly when the body of its
    [try] raises, and an injection otherwise; the body raises, among
    others, when [context_window] or the soft threshold is not a number
    ([TypeError]), and when [usage_pct] is an infinity or NaN, or
    [pct * 100] is, so that [int()] raises ([OverflowError],
    [ValueError]). *)
Theorem guardian_never_raises (t : TokenTracker) (d : list (string * pyval)) :
  snd (_handle_response t d) = continue_result /\
  (as_num (extracted_input d) = None -> fst (_handle_response t d) = t) /\
  (_handle_request t = continue_result <-> request_body t = None) /\
  (forall r, request_body t = Some r -> _handle_request t = r /\ action r = "inject_context") /\
  (as_num (context_window t) = None -> _handle_request t = continue_result) /\
  (as_num (soft_threshold t) = None -> _handle_request t = continue_result) /\
  (forall pct, usage_pct t = Some pct -> float_value pct = None ->
     _handle_request t = continue_result) /\
  (forall pct, usage_pct t = Some pct -> percent pct = None ->
     _handle_request t = continue_result).
Proof.
  assert (Hper : forall pct, usage_pct t = Some pct -> percent pct = None ->
            _handle_request t = continue_result).
  { intros pct Hp Hn. unfold _handle_request, request_body. rewrite Hp, Hn. reflexivity. }
  split; [unfold _handle_response; destruct (_extract_tokens _); reflexivity|].
  split.
  { unfold _handle_response, extracted_input.
    destruct (_extract_tokens (dict_get d "usage" PNone)) as [i o]; simpl.
    intro H. unfold py_lt. rewrite H. destruct (as_num (PInt 0)); reflexivity. }
  split.
  { unfold _handle_request. split.
    - destruct (request_body t) as [r|] eqn:E; [|reflexivity].
      intro Hr. subst r. apply body_inject in E. discriminate.
    - intro E. rewrite E. reflexivity. }
  split.
  { intros r Hr. split; [unfold _handle_request; rewrite Hr; reflexivity | exact (body_inject t r Hr)]. }
  split.
  { intro H. unfold _handle_request, request_body, usage_pct, py_le. rewrite H. reflexivity. }
  split.
  { intro H. unfold _handle_request, request_body.
    destruct (usage_pct t) as [pct|]; [|reflexivity].
    destruct (percent pct); [|reflexivity].
    unfold py_lt. rewrite H. destruct (as_num (PFloat pct)); reflexivity. }
  split; [|exact Hper].
  intros pct Hp Hv. apply (Hper pct Hp). exact (percent_non_finite pct Hv).
Qed.

(** A window given as a string, a NaN window ([0 / nan] is NaN) and a tiny
    float window under a huge count ([1e300 / 5e-324] overflows to an
    infinity) all end in [continue]; an input count given as a string
    leaves the tracker as it was. *)
Lemma guardian_never_raises_witness :
  _handle_request (init_tracker [("context_window", PStr "200000")]) = continue_result /\
  _handle_request (init_tracker [("context_window", PFloat S754_nan)]) = continue_result /\
  _handle_request (run_responses (init_tracker [("context_window", PFloat (S754_finite false 1 (-1074)))])
                     [usage_event (10 ^ 300) 1]) = continue_result /\
  fst (_handle_response (init_tracker []) [("usage", PDict [("input_tokens", PStr "abc")])])
    = init_tracker [].
Proof.
  split; [|split; [|split]].
  - destruct (guardian_never_raises (init_tracker [("context_window", PStr "200000")]) [])
      as [_ [_ [_ [_ [H _]]]]].
    apply H. reflexivity.
  - destruct (guardian_never_raises (init_tracker [("context_window", PFloat S754_nan)]) [])
      as [_ [_ [_ [_ [_ [_ [H _]]]]]]].
    apply (H S754_nan); reflexivity.
  - destruct (guardian_never_raises
                (run_responses (init_tracker [("context_window", PFloat (S754_finite false 1 (-1074)))])
                   [usage_event (10 ^ 300) 1]) [])
      as [_ [_ [_ [_ [_ [_ [H _]]]]]]].
    apply (H (S754_infinity false)); vm_compute; reflexivity.
  - destruct (guardian_never_raises (init_tracker []) [("usage", PDict [("input_tokens", PStr "abc")])])
      as [_ [H _]].
    apply H. reflexivity.
Defined.

(** C8, as the code has it: over events whose extracted input count is a
    number and whose output count is an [int], [cumulative_output_tokens]
    is the [int] sum of the outputs and [turn_count] the number of events;
    an event whose input or output count is not a number adds nothing to
    either. *)
Theorem output_sum_and_turns (cfg : list (string * pyval))
  (evs : list (list (string * pyval)))
  (Hint : forallb int_output_event evs = true) :
  cumulative_output_tokens (run_responses (init_tracker cfg) evs) = PInt (sum_outputs evs) /\
  turn_count (run_responses (init_tracker cfg) evs) = Z.of_nat (List.length evs) /\
  (forall t d, as_num (extracted_input d) = None \/ as_num (extracted_output d) = None ->
     cumulative_output_tokens (fst (_handle_response t d)) = cumulative_output_tokens t /\
     turn_count (fst (_handle_response t d)) = turn_count t).
Proof.
  destruct (run_int_outputs (init_tracker cfg) evs 0 eq_refl Hint) as [Hc Ht].
  split; [exact Hc|]. split; [exact Ht|].
  intros t d H. exact (response_non_number t d H).
Qed.

(** Outputs [50, 75, 0]: cumulative [125] after [3] turns. *)
Lemma output_sum_and_turns_witness :
  let evs := [usage_event 1000 50; usage_event 0 75; usage_event 3000 0] in
  cumulative_output_tokens (run_responses (init_tracker []) evs) = PInt 125 /\
  turn_count (run_responses (init_tracker []) evs) = 3%Z.
Proof.
  intro evs.
  destruct (output_sum_and_turns [] evs (eq_refl true)) as [Hc [Ht _]].
  split; [exact Hc | exact Ht].
Defined.

(** C8 fails as stated: a response whose [input_tokens] is a string makes
    [input_tokens > 0] raise inside the [try], so that event is not
    counted in [turn_count]. *)
Lemma turn_count_skips_non_numeric :
  let evs := [[("usage", PDict [("input_tokens", PStr "abc")])]] in
  turn_count (run_responses (init_tracker []) evs) <> Z.of_nat (List.length evs).
Proof. vm_compute. discriminate. Qed.

(** C9, as the code has it.  While [cumulative_output_tokens] is an
    [int] [c]: an event whose output count is an [int] not below zero
    leaves an [int] not below [c]; an event whose input or output count
    is not a number leaves it unchanged; when the input count is a number,
    an [int] output [o] gives [c + o] (so a negative one lowers it), and a
    [float] output [f] gives the double [float(c) + f] (when [float(c)]
    does not overflow). *)
Theorem cumulative_output_monotone (t : TokenTracker) (d : list (string * pyval)) (c : Z)
  (Hc : cumulative_output_tokens t = PInt c) :
  (forall o, int_output d = Some o -> (0 <= o)%Z ->
     exists c', cumulative_output_tokens (fst (_handle_response t d)) = PInt c' /\ (c <= c')%Z) /\
  (as_num (extracted_input d) = None \/ as_num (extracted_output d) = None ->
     cumulative_output_tokens (fst (_handle_response t d)) = PInt c) /\
  (forall o, as_num (extracted_input d) <> None -> int_output d = Some o ->
     cumulative_output_tokens (fst (_handle_response t d)) = PInt (c + o)) /\
  (forall f, as_num (extracted_input d) <> None -> as_num (extracted_output d) = Some (NFloat f) ->
     cumulative_output_tokens (fst (_handle_response t d)) =
       match float_of_int c with
       | Some g => PFloat (SFadd prec emax g f)
       | None => PInt c
       end).
Proof.
  assert (Hint : forall o, as_num (extracted_input d) <> None -> int_output d = Some o ->
            cumulative_output_tokens (fst (_handle_response t d)) = PInt (c + o)).
  { intros o Hi Ho. exact (proj1 (response_int_output t d c o Hi Ho Hc)). }
  split; [|split; [|split; [exact Hint|]]].
  - intros o Ho Hnn.
    destruct (as_num (extracted_input d)) as [n|] eqn:Ei.
    + exists (c + o)%Z. split; [apply Hint; [discriminate | exact Ho] | lia].
    + exists c. split; [|lia]. rewrite <- Hc. apply (response_non_number t d). left. exact Ei.
  - intro H. rewrite <- Hc. exact (proj1 (response_non_number t d H)).
  - intros f Hi Hf.
    pose proof (response_counters t d) as R.
    destruct (lt0_some _ Hi) as [b Hb]. rewrite Hb in R.
    unfold py_add in R. rewrite Hc, Hf in R. simpl in R.
    destruct (float_of_int c); injection R as R1 R2; exact R1.
Qed.

(** From a fresh tracker, output [5]: the total goes from [0] to [5]. *)
Lemma cumulative_output_monotone_witness :
  cumulative_output_tokens (fst (_handle_response (init_tracker []) (usage_event 100 5))) = PInt 5.
Proof.
  destruct (cumulative_output_monotone (init_tracker []) (usage_event 100 5) 0 eq_refl)
    as [_ [_ [H _]]].
  apply (H 5%Z); [discriminate | reflexivity].
Defined.

(** C9 fails as stated: a payload reporting [output_tokens = -5] is added
    as is and takes the total from [0] to [-5]; and a total of
    [2^53 + 1] plus an output of [0.5] becomes the double [2^53], below
    it. *)
Lemma negative_output_decreases :
  cumulative_output_tokens (fst (_handle_response (init_tracker []) (usage_event 100 (-5))))
    = PInt (-5) /\
  (let t := run_responses (init_tracker []) [usage_event 1 (2 ^ 53 + 1)] in
   let t' := fst (_handle_response t
               [("usage", PDict [("input_tokens", PInt 1);
                                 ("output_tokens", PFloat (float_literal 5 10))])]) in
   cumulative_output_tokens t = PInt (2 ^ 53 + 1) /\
   cumulative_output_tokens t' = PFloat (S754_finite false 4503599627370496 1) /\
   py_lt (cumulative_output_tokens t') (cumulative_output_tokens t) = Some true).
Proof. vm_compute. split; [reflexivity | split; [reflexivity | split; reflexivity]]. Qed.

(** C10.  From a fresh tracker, [latest_input_tokens] stays at least [0]
    over any run of response events; an event without an input count
    greater than [0] (a negative one included) leaves it unchanged;
    [usage_pct] is never below [0] ([pct < 0] is false), and when
    [pct * 100] is finite, [int(pct * 100)] is its floor. *)
Theorem latest_input_nonneg (cfg : list (string * pyval))
  (evs : list (list (string * pyval))) :
  let t := run_responses (init_tracker cfg) evs in
  py_le (PInt 0) (latest_input_tokens t) = Some true /\
  (forall d, positive_input d = None ->
     latest_input_tokens (fst (_handle_response t d)) = latest_input_tokens t) /\
  (forall pct, usage_pct t = Some pct ->
     py_lt (PFloat pct) (PInt 0) = Some false /\
     forall x, float_value (SFmul prec emax pct float_100) = Some x ->
       percent pct = Some (Qfloor x)).
Proof.
  intro t.
  assert (Hok : latest_ok (latest_input_tokens t)) by (apply run_latest_ok; left; reflexivity).
  split.
  { destruct Hok as [-> | H]; [reflexivity|].
    revert H. unfold py_lt, py_le.
    destruct (as_num (PInt 0)), (as_num (latest_input_tokens t)); try discriminate.
    intro H. injection H as H. rewrite (xlt_xle _ _ H). reflexivity. }
  split.
  - intros d Hd. rewrite response_latest, Hd. reflexivity.
  - intros pct Hpct.
    pose proof (usage_pct_not_negative t pct Hok Hpct) as Hnn.
    split.
    + unfold py_lt. simpl. f_equal. exact (not_negative_not_lt pct Hnn).
    + intros x Hx. exact (percent_floor pct x Hnn Hx).
Qed.

Lemma latest_input_nonneg_witness :
  let t := run_responses (init_tracker []) [usage_event 500 1] in
  latest_input_tokens (fst (_handle_response t (usage_event (-7) 1))) = PInt 500.
Proof.
  destruct (latest_input_nonneg [] [usage_event 500 1]) as [_ [Hneg _]].
  cbv zeta in *. rewrite Hneg by reflexivity. reflexivity.
Defined.

(** ** Further properties of the guardian *)

(** Response events never change [context_window] or the two thresholds,
    and each one raises [turn_count] by zero or one. *)
Theorem responses_keep_config (t : TokenTracker) (evs : list (list (string * pyval))) :
  context_window (run_responses t evs) = context_window t /\
  soft_threshold (run_responses t evs) = soft_threshold t /\
  hard_threshold (run_responses t evs) = hard_threshold t /\
  (turn_count t <= turn_count (run_responses t evs) <= turn_count t + Z.of_nat (List.length evs))%Z.
Proof.
  revert t. induction evs as [|d rest IH]; intro t; [simpl; repeat split; lia|].
  change (run_responses t (d :: rest)) with (run_responses (fst (_handle_response t d)) rest).
  destruct (IH (fst (_handle_response t d))) as [H1 [H2 [H3 H4]]].
  destruct (response_config_turn t d) as [G1 [G2 [G3 G4]]].
  rewrite H1, H2, H3, G1, G2, G3. repeat split; simpl List.length; destruct G4 as [G4 | G4]; lia.
Qed.

(** With a finite numeric [context_window] of zero or less, [usage_pct]
    is [0.0] and, for a positive finite soft threshold, every request gets
    the informational injection with [0%]. *)
Theorem nonpositive_window_info (t : TokenTracker) (cw soft : Q)
  (Hcw : num_value (context_window t) = Some cw) (Hle : cw <= 0)
  (Hsoft : num_value (soft_threshold t) = Some soft) (Hpos : 0 < soft) :
  _handle_request t = inject (info_msg 0 (turn_count t)) None.
Proof.
  destruct (num_value_xreal _ _ Hcw) as [n [Hn Hx]].
  assert (Hu : usage_pct t = Some (S754_zero false)).
  { unfold usage_pct, py_le. rewrite Hn, Hx. simpl.
    rewrite (proj2 (Qltb_false (inject_Z 0) cw) Hle). reflexivity. }
  unfold _handle_request, request_body. rewrite Hu.
  change (percent (S754_zero false)) with (Some 0%Z). cbv iota beta.
  rewrite (lt_finite (S754_zero false) 0 soft _ eq_refl Hsoft).
  apply Qltb_true in Hpos. rewrite Hpos. reflexivity.
Qed.

Lemma nonpositive_window_info_witness :
  _handle_request (init_tracker [("context_window", PInt 0)]) = inject (info_msg 0 0) None.
Proof.
  apply (nonpositive_window_info (init_tracker [("context_window", PInt 0)]) 0
           (5404319552844595 # 9007199254740992));
    vm_compute; first [reflexivity | discriminate | intro; discriminate].
Defined.

(** A [context_window] or soft threshold that is not a number makes the
    body of [_handle_request] raise; the request gets [continue]. *)
Theorem non_numeric_config_continue (t : TokenTracker)
  (H : as_num (context_window t) = None \/ as_num (soft_threshold t) = None) :
  _handle_request t = continue_result.
Proof.
  unfold _handle_request, request_body.
  destruct H as [H | H].
  - unfold usage_pct, py_le. rewrite H. reflexivity.
  - destruct (usage_pct t) as [pct|]; [|reflexivity].
    destruct (percent pct); [|reflexivity].
    unfold py_lt. rewrite H. destruct (as_num (PFloat pct)); reflexivity.
Qed.

Lemma non_numeric_config_continue_witness :
  _handle_request (init_tracker [("soft_threshold", PStr "0.6")]) = continue_result.
Proof.
  apply non_numeric_config_continue. right. reflexivity.
Defined.

(** A hard threshold that is not a number only matters once the soft
    threshold is reached: from there on the request gets [continue]. *)
Theorem non_numeric_hard_continue (t : TokenTracker) (soft p : Q) (pct : spec_float)
  (Hpct : usage_pct t = Some pct) (Hp : float_value pct = Some p)
  (Hsoft : num_value (soft_threshold t) = Some soft) (Hge : soft <= p)
  (Hhard : as_num (hard_threshold t) = None) :
  _handle_request t = continue_result.
Proof.
  unfold _handle_request, request_body. rewrite Hpct.
  destruct (percent pct); [|reflexivity].
  rewrite (lt_finite pct p soft _ Hp Hsoft).
  apply Qltb_false in Hge. rewrite Hge.
  unfold py_lt. rewrite Hhard. destruct (as_num (PFloat pct)); reflexivity.
Qed.

Lemma non_numeric_hard_continue_witness :
  let t := run_responses (init_tracker [("hard_threshold", PNone)]) [usage_event 150000 1] in
  _handle_request t = continue_result.
Proof.
  intro t. apply (non_numeric_hard_continue t (5404319552844595 # 9007199254740992)
                    (6755399441055744 # 9007199254740992)
                    (S754_finite false 6755399441055744 (-53)));
    vm_compute; first [reflexivity | discriminate | intro; discriminate].
Defined.


(** ** Session-state tool facts *)

Lemma str_app_assoc (a b c : string) : (a ++ b) ++ c = a ++ (b ++ c).
Proof. induction a as [|x a IH]; simpl; [reflexivity | rewrite IH; reflexivity]. Qed.

Lemma str_app_nil (a : string) : a ++ "" = a.
Proof. induction a as [|x a IH]; simpl; [reflexivity | rewrite IH; reflexivity]. Qed.

Lemma str_length_app (a b : string) :
  String.length (a ++ b) = (String.length a + String.length b)%nat.
Proof. induction a as [|x a IH]; simpl; [reflexivity | rewrite IH; reflexivity]. Qed.

Lemma substring_full (s : string) : substring 0 (String.length s) s = s.
Proof. induction s as [|x s IH]; simpl; [reflexivity | rewrite IH; reflexivity]. Qed.

Lemma substring_after (a b : string) :
  substring (String.length a) (String.length b) (a ++ b) = b.
Proof. induction a as [|x a IH]; simpl; [apply substring_full | exact IH]. Qed.

Lemma ends_with_app (s suffix : string) : ends_with suffix (s ++ suffix) = true.
Proof.
  unfold ends_with. rewrite str_length_app.
  replace (String.length s + String.length suffix - String.length suffix)%nat
    with (String.length s) by lia.
  rewrite substring_after, String.eqb_refl, andb_true_r.
  apply Nat.leb_le. lia.
Qed.

(** An element of a joined list occurs in the joined string. *)
Lemma concat_occurs (sep f : string) (l : list string) :
  In f l -> exists pre post, String.concat sep l = pre ++ f ++ post.
Proof.
  induction l as [|x rest IH]; [intros []|].
  intros [<- | Hin].
  - exists "". destruct rest as [|y rest'].
    + exists "". simpl. rewrite str_app_nil. reflexivity.
    + exists (sep ++ String.concat sep (y :: rest')). reflexivity.
  - destruct (IH Hin) as [pre [post Heq]].
    destruct rest as [|y rest']; [destruct Hin|].
    exists (x ++ sep ++ pre), post.
    change (String.concat sep (x :: y :: rest'))
      with (x ++ sep ++ String.concat sep (y :: rest')).
    rewrite Heq, !str_app_assoc. reflexivity.
Qed.

Lemma missing_field_listed (input : list (string * json)) (f : string) :
  In f REQUIRED -> truthy (dict_get input f JNull) = false ->
  In f (missing_fields input).
Proof.
  intros Hf Hm. unfold missing_fields. apply filter_In. split; [exact Hf|].
  rewrite Hm. reflexivity.
Qed.

Lemma prune_spec (files : list entry) (now : Z) :
  _prune_old_states files now =
  (filter (fun f => negb (pruneable now f)) files,
   Z.of_nat (List.length (filter (pruneable now) files))).
Proof.
  induction files as [|f rest IH]; [reflexivity|].
  cbn [_prune_old_states filter]. rewrite IH.
  change (is_json f && (min_mtime <=? fmtime f)%Z
          && (fmtime f <? now - PRUNE_DAYS * us_per_day)%Z
          && unlink_ok f && negb (is_directory f))
    with (pruneable now f).
  destruct (pruneable now f); cbn [negb List.length]; [f_equal; lia | reflexivity].
Qed.

Lemma write_file_fresh (files : list entry) name c size mtime :
  ~ In name (map fname files) ->
  write_file files name c size mtime = (files ++ [mkEntry name c size mtime true])%list.
Proof.
  induction files as [|e rest IH]; intro Hfresh; [reflexivity|].
  simpl in Hfresh |- *. destruct (String.eqb (fname e) name) eqn:E.
  - apply String.eqb_eq in E. exfalso. apply Hfresh. left. exact E.
  - rewrite IH; [reflexivity|]. intro H. apply Hfresh. right. exact H.
Qed.

Lemma saved_entry_json sid now input : is_json (saved_entry sid now input) = true.
Proof. apply ends_with_app. Qed.

(** A file stamped at [now] is never old enough to be pruned at [now]. *)
Lemma not_pruneable_at (now : Z) (e : entry) : fmtime e = now -> pruneable now e = false.
Proof.
  intro Ht. unfold pruneable. rewrite Ht.
  replace (now <? now - PRUNE_DAYS * us_per_day)%Z with false.
  - rewrite andb_false_r. reflexivity.
  - symmetry. apply Z.ltb_ge. unfold PRUNE_DAYS, us_per_day, us_per_second. lia.
Qed.

Lemma saved_entry_not_pruneable sid now input :
  pruneable now (saved_entry sid now input) = false.
Proof. apply not_pruneable_at. reflexivity. Qed.

Lemma fresh_no_dir (files : list entry) (name : string) :
  ~ In name (map fname files) -> dir_at files name = false.
Proof.
  intro Hf. unfold dir_at. apply not_true_iff_false. intro H.
  apply existsb_exists in H as [e [He Hx]]. apply andb_prop in Hx as [Hn _].
  apply String.eqb_eq in Hn. apply Hf. rewrite <- Hn. apply in_map. exact He.
Qed.

(** A save into a store that is not a directory, or whose snapshot name is
    a subdirectory, raises and changes nothing. *)
Lemma save_not_dir sid now input :
  missing_fields input = [] ->
  _save_state sid now NotDir input = (NotDir, Raised (FileExistsError STATE_DIR)).
Proof. intro Hv. unfold _save_state. rewrite Hv. reflexivity. Qed.

Lemma save_dir_taken sid now st input :
  missing_fields input = [] -> st <> NotDir ->
  dir_at (dir_files st) (snapshot_name now) = true ->
  _save_state sid now st input = (st, Raised (IsADirectoryError (path_of (snapshot_name now)))).
Proof.
  intros Hv Hst Hd. unfold _save_state. rewrite Hv.
  destruct st as [| |fs]; [| contradiction |];
    cbn [dir_files] in Hd |- *; unfold snapshot_name in Hd; rewrite Hd; reflexivity.
Qed.

(** The directory after a valid save: what [write_text] then
    [_prune_old_states] leave. *)
Lemma save_valid_store sid now st input :
  missing_fields input = [] -> st <> NotDir ->
  dir_at (dir_files st) (snapshot_name now) = false ->
  _save_state sid now st input =
  (Dir (filter (fun f => negb (pruneable now f))
          (write_file (dir_files st) (snapshot_name now)
             (Parsed (state_doc input now sid))
             (Z.of_nat (String.length (dumps (state_doc input now sid) ++ newline))) now)),
   Output (save_message (path_of (snapshot_name now))
     (Z.of_nat (List.length (filter (pruneable now)
        (write_file (dir_files st) (snapshot_name now)
           (Parsed (state_doc input now sid))
           (Z.of_nat (String.length (dumps (state_doc input now sid) ++ newline))) now)))))).
Proof.
  intros Hv Hst Hd. unfold _save_state. rewrite Hv.
  destruct st as [| |fs]; [| contradiction |];
    cbn [dir_files] in Hd |- *; unfold snapshot_name in Hd |- *; rewrite Hd, prune_spec;
    reflexivity.
Qed.

(** What a valid save does when the new snapshot's name is not taken. *)
Lemma save_valid_effect sid now input st :
  missing_fields input = [] -> st <> NotDir ->
  ~ In (snapshot_name now) (map fname (dir_files st)) ->
  _save_state sid now st input =
  (Dir (filter (fun f => negb (pruneable now f)) (dir_files st)
        ++ [saved_entry sid now input])%list,
   Output (save_message (path_of (snapshot_name now))
             (Z.of_nat (List.length (filter (pruneable now) (dir_files st)))))).
Proof.
  intros Hvalid Hst Hfresh.
  rewrite (save_valid_store sid now st input Hvalid Hst (fresh_no_dir _ _ Hfresh)).
  rewrite write_file_fresh by exact Hfresh.
  change (mkEntry (snapshot_name now) (Parsed (state_doc input now sid))
            (Z.of_nat (String.length (dumps (state_doc input now sid) ++ newline))) now true)
    with (saved_entry sid now input).
  rewrite !filter_app. cbn [filter]. rewrite saved_entry_not_pruneable.
  cbn [negb]. rewrite app_nil_r. reflexivity.
Qed.

Lemma write_file_pruned (files : list entry) name c size now :
  NoDup (map fname files) ->
  filter (pruneable now) (write_file files name c size now)
  = filter (fun f => pruneable now f && negb (String.eqb (fname f) name)) files.
Proof.
  induction files as [|e rest IH]; intro Hnd; cbn [write_file].
  - cbn [filter]. rewrite (not_pruneable_at now (mkEntry name c size now true) eq_refl).
    reflexivity.
  - inversion Hnd as [|? ? Hx Hr]; subst.
    destruct (String.eqb (fname e) name) eqn:E; cbn [filter].
    + rewrite (not_pruneable_at now (mkEntry name c size now (unlink_ok e)) eq_refl).
      rewrite E. cbn [negb]. rewrite andb_false_r.
      apply filter_ext_in. intros f Hf.
      replace (String.eqb (fname f) name) with false; [rewrite andb_true_r; reflexivity|].
      symmetry. apply String.eqb_neq. intro Hfn. apply Hx.
      apply String.eqb_eq in E. rewrite E, <- Hfn. apply in_map. exact Hf.
    + rewrite E. cbn [negb]. rewrite andb_true_r, IH by exact Hr. reflexivity.
Qed.

Lemma store_eq_dec_notdir (st : store) : {st = NotDir} + {st <> NotDir}.
Proof. destruct st; [right; discriminate | left; reflexivity | right; discriminate]. Defined.

Lemma is_op_eq (j : json) (name : string) : is_op j name = true -> j = JStr name.
Proof.
  destruct j; cbn [is_op]; try discriminate.
  intro H. apply String.eqb_eq in H. subst. reflexivity.
Qed.

(** A [save_state] call leaves the store [_save_state] leaves, whether it
    returns or raises. *)
Lemma execute_save_store sid now st input :
  is_op (dict_get input "operation" JNull) "save_state" = true ->
  fst (execute sid now st input) = fst (_save_state sid now st input).
Proof.
  intro Hop. unfold execute, dispatch. cbv zeta. rewrite Hop.
  destruct (_save_state sid now st input) as [st' [t | e]]; reflexivity.
Qed.

(** ** Claims about the session-state tool *)

(** C3, as the code has it.  A [save_state] call whose [summary],
    [accomplished] or [remaining] is missing or empty (falsy) writes no
    file: the store is returned untouched, and [_save_state] builds an
    error text naming that field.  But it passes the text to
    [ToolResult(error=...)], which raises a validation error; [execute]
    catches it and raises again from its own [ToolResult(error=...)], so
    the call returns no result at all. *)
Theorem save_missing_raises (session_id : option string) (now : Z) (st : store)
  (input : list (string * json)) (f : string)
  (Hop : is_op (dict_get input "operation" JNull) "save_state" = true)
  (Hf : In f REQUIRED) (Hmiss : truthy (dict_get input f JNull) = false) :
  exists msg,
    _save_state session_id now st input = (st, Raised (ValidationError msg)) /\
    execute session_id now st input
      = (st, Raised (ExecuteValidationError "save_state" (ValidationError msg))) /\
    exists pre post, msg = pre ++ f ++ post.
Proof.
  pose proof (missing_field_listed input f Hf Hmiss) as Hin.
  destruct (concat_occurs ", " f (missing_fields input) Hin) as [pre [post Heq]].
  assert (Hs : _save_state session_id now st input
               = (st, Raised (ValidationError ("save_state requires: "
                                               ++ String.concat ", " (missing_fields input))))).
  { unfold _save_state. destruct (missing_fields input) as [|m ms]; [destruct Hin | reflexivity]. }
  eexists. split; [exact Hs|]. split.
  - unfold execute, dispatch. cbv zeta. rewrite Hs, (is_op_eq _ _ Hop). reflexivity.
  - exists ("save_state requires: " ++ pre), post. rewrite Heq, str_app_assoc. reflexivity.
Qed.

(** A save with an empty [remaining] list next to an existing snapshot. *)
Lemma save_missing_raises_witness :
  exists msg,
    _save_state None 1792400000000000 (Dir [old_snapshot]) (sample_input [])
      = (Dir [old_snapshot], Raised (ValidationError msg)) /\
    execute None 1792400000000000 (Dir [old_snapshot]) (sample_input [])
      = (Dir [old_snapshot], Raised (ExecuteValidationError "save_state" (ValidationError msg))) /\
    exists pre post, msg = pre ++ "remaining" ++ post.
Proof.
  apply (save_missing_raises None 1792400000000000 (Dir [old_snapshot])
           (sample_input []) "remaining").
  - reflexivity.
  - simpl. auto.
  - reflexivity.
Defined.

(** C4.  From an empty store (no directory, or an empty one), a valid save
    writes exactly one snapshot holding the saved document; [load_state]
    then returns that document, and [list_states] reports one entry. *)
Theorem save_then_load_roundtrip (session_id : option string) (now : Z)
  (st : store) (input : list (string * json))
  (Hempty : st = NoDir \/ st = Dir [])
  (Hvalid : missing_fields input = []) :
  let st' := Dir [saved_entry session_id now input] in
  fst (_save_state session_id now st input) = st' /\
  fcontent (saved_entry session_id now input) = Parsed (state_doc input now session_id) /\
  _load_state st' = Output (dumps (state_doc input now session_id)) /\
  _list_states st' =
    Output ("Found 1 state file(s):" ++ newline
            ++ list_entry_line (saved_entry session_id now input)).
Proof.
  intro st'.
  assert (Hsave : fst (_save_state session_id now st input) = st').
  { destruct Hempty as [-> | ->];
      rewrite save_valid_effect by first [exact Hvalid | discriminate | intros []];
      reflexivity. }
  assert (Hsort : sorted_json_desc [saved_entry session_id now input]
                  = [saved_entry session_id now input]).
  { unfold sorted_json_desc. simpl filter. rewrite saved_entry_json. reflexivity. }
  split; [exact Hsave|]. split; [reflexivity|]. split.
  - unfold st', _load_state. rewrite Hsort. reflexivity.
  - unfold st', _list_states. rewrite Hsort. reflexivity.
Qed.

Lemma save_then_load_roundtrip_witness :
  let input := sample_input [JStr "proofs"] in
  _load_state (fst (_save_state (Some "s-1") 1792400000000000 NoDir input))
  = Output (dumps (state_doc input 1792400000000000 (Some "s-1"))).
Proof.
  intro input.
  destruct (save_then_load_roundtrip (Some "s-1") 1792400000000000 NoDir input
              (or_introl eq_refl) eq_refl) as [Hs [_ [Hl _]]].
  rewrite Hs. exact Hl.
Defined.

(** C5.  A valid save writes the new snapshot, then deletes the [*.json]
    entries whose modification time is older than [now - 7 days]; an
    entry whose deletion fails (its [unlink] raises, it is a
    subdirectory, or [datetime] cannot represent its mtime) is swallowed:
    it stays, is not counted, and the save still succeeds.  In a
    directory with distinct names the deleted files are exactly the old
    snapshots other than the one the new snapshot overwrites; the result
    names their number when it is not zero and says nothing of pruning
    when it is zero. *)
Theorem save_prunes_old (session_id : option string) (now : Z)
  (input : list (string * json)) (files : list entry)
  (Hvalid : missing_fields input = [])
  (Hdir : dir_at files (snapshot_name now) = false)
  (Hnd : NoDup (map fname files)) :
  let written := write_file files (snapshot_name now) (Parsed (state_doc input now session_id))
                   (Z.of_nat (String.length (dumps (state_doc input now session_id) ++ newline)))
                   now in
  let pruned := Z.of_nat (List.length (filter (pruneable now) written)) in
  let path := path_of (snapshot_name now) in
  _save_state session_id now (Dir files) input =
    (Dir (filter (fun f => negb (pruneable now f)) written), Output (save_message path pruned)) /\
  filter (pruneable now) written
    = filter (fun f => pruneable now f && negb (String.eqb (fname f) (snapshot_name now))) files /\
  (pruned <> 0%Z ->
   save_message path pruned =
     "State saved to " ++ path ++ " (pruned " ++ string_of_Z pruned ++ " old file"
     ++ (if (pruned =? 1)%Z then "" else "s") ++ ")") /\
  (pruned = 0%Z -> save_message path pruned = "State saved to " ++ path).
Proof.
  intros written pruned path. split; [|split; [|split]].
  - apply save_valid_store; [exact Hvalid | discriminate | exact Hdir].
  - apply write_file_pruned. exact Hnd.
  - intro Hnz. unfold save_message. apply Z.eqb_neq in Hnz. rewrite Hnz. reflexivity.
  - intro Hz. unfold save_message. rewrite Hz. simpl. rewrite str_app_nil. reflexivity.
Qed.

(** Two old snapshots, one of which cannot be deleted: one file pruned. *)
Lemma save_prunes_old_witness :
  _save_state None 1792400000000000
    (Dir [old_snapshot; recent_snapshot; locked_snapshot; notes_file])
    (sample_input [JStr "proofs"])
  = (Dir [recent_snapshot; locked_snapshot; notes_file;
          saved_entry None 1792400000000000 (sample_input [JStr "proofs"])],
     Output "State saved to .session-state/2026-10-19T08-53-20.json (pruned 1 old file)").
Proof.
  destruct (save_prunes_old None 1792400000000000 (sample_input [JStr "proofs"])
              [old_snapshot; recent_snapshot; locked_snapshot; notes_file])
    as [Heq _].
  - vm_compute. reflexivity.
  - vm_compute. reflexivity.
  - repeat constructor; cbn; intuition discriminate.
  - rewrite Heq. vm_compute. reflexivity.
Defined.

(** C6.  [load_state] on a missing directory (or on something that is not
    a directory) and on a directory with no [*.json] entry both return an
    informational output, not an error, and the two messages differ. *)
Theorem load_fresh_session (files : list entry)
  (Hnone : filter is_json files = []) :
  _load_state NoDir =
    Output "No session state directory found. This appears to be a fresh session." /\
  _load_state NotDir =
    Output "No session state directory found. This appears to be a fresh session." /\
  _load_state (Dir files) =
    Output "No state files found. This appears to be a fresh session." /\
  "No session state directory found. This appears to be a fresh session."
    <> "No state files found. This appears to be a fresh session.".
Proof.
  split; [reflexivity|]. split; [reflexivity|]. split.
  - unfold _load_state, sorted_json_desc. rewrite Hnone. reflexivity.
  - discriminate.
Qed.

Lemma load_fresh_session_witness :
  _load_state (Dir [notes_file]) =
    Output "No state files found. This appears to be a fresh session.".
Proof.
  destruct (load_fresh_session [notes_file]) as [_ [_ [H _]]].
  - reflexivity.
  - exact H.
Defined.

(** ** Further properties of the session-state tool *)

Lemma insert_desc_perm (e : entry) (l : list entry) : Permutation (e :: l) (insert_desc e l).
Proof.
  induction l as [|x rest IH]; simpl; [reflexivity|].
  destruct (String.leb (fname x) (fname e)); [reflexivity|].
  etransitivity; [apply perm_swap | apply perm_skip; exact IH].
Qed.

Lemma sort_perm (l : list entry) : Permutation l (fold_right insert_desc [] l).
Proof.
  induction l as [|x rest IH]; simpl; [reflexivity|].
  etransitivity; [apply perm_skip; exact IH | apply insert_desc_perm].
Qed.

Lemma leb_flip (a b : string) : String.leb a b = false -> String.leb b a = true.
Proof. intro H. destruct (String.leb_total a b) as [H' | H']; [congruence | exact H']. Qed.

Lemma insert_desc_sorted (e : entry) (l : list entry) :
  Sorted newer_or_same l -> Sorted newer_or_same (insert_desc e l).
Proof.
  induction l as [|x rest IH]; intro Hs; simpl.
  - constructor; constructor.
  - destruct (String.leb (fname x) (fname e)) eqn:E.
    + constructor; [exact Hs | constructor; exact E].
    + inversion Hs as [|? ? Hr Hhd]; subst.
      constructor; [apply IH; exact Hr|].
      destruct rest as [|y rest']; simpl.
      * constructor. unfold newer_or_same. apply leb_flip. exact E.
      * destruct (String.leb (fname y) (fname e)); constructor.
        -- unfold newer_or_same. apply leb_flip. exact E.
        -- inversion Hhd. assumption.
Qed.

Lemma sort_sorted (l : list entry) : Sorted newer_or_same (fold_right insert_desc [] l).
Proof.
  induction l as [|x rest IH]; simpl; [constructor | apply insert_desc_sorted; exact IH].
Qed.

(** [list_states] on a directory holding at least one [*.json] file lists
    every such file exactly once, newest name first, under a header with
    their number; other files are left out. *)
Theorem list_states_newest_first (files : list entry) (Hne : filter is_json files <> []) :
  exists listed,
    _list_states (Dir files) =
      Output ("Found " ++ string_of_Z (Z.of_nat (List.length (filter is_json files)))
              ++ " state file(s):" ++ newline
              ++ String.concat newline (map list_entry_line listed)) /\
    Permutation (filter is_json files) listed /\
    Sorted newer_or_same listed.
Proof.
  exists (sorted_json_desc files).
  pose proof (sort_perm (filter is_json files)) as Hp.
  split; [|split; [exact Hp | apply sort_sorted]].
  unfold _list_states. fold (sorted_json_desc files) in Hp |- *.
  destruct (sorted_json_desc files) as [|f fs] eqn:E.
  - apply Permutation_sym, Permutation_nil in Hp. contradiction.
  - rewrite (Permutation_length Hp). reflexivity.
Qed.

Lemma list_states_newest_first_witness :
  exists listed,
    _list_states (Dir [old_snapshot; notes_file; recent_snapshot]) =
      Output ("Found 2 state file(s):" ++ newline
              ++ String.concat newline (map list_entry_line listed)) /\
    Permutation [old_snapshot; recent_snapshot] listed /\
    Sorted newer_or_same listed.
Proof.
  apply (list_states_newest_first [old_snapshot; notes_file; recent_snapshot]).
  vm_compute. discriminate.
Defined.

Lemma str_compare_refl (s : string) : String.compare s s = Eq.
Proof.
  induction s as [|c s IH]; simpl; [reflexivity|].
  replace (Ascii.compare c c) with Eq by (symmetry; apply N.compare_refl). exact IH.
Qed.

Lemma ltb_not_leb (a b : string) : String.ltb a b = true -> String.leb b a = false.
Proof.
  unfold String.ltb, String.leb. rewrite (String.compare_antisym b a).
  destruct (String.compare a b); simpl; congruence.
Qed.

Lemma ltb_leb (a b : string) : String.ltb a b = true -> String.leb a b = true.
Proof. unfold String.ltb, String.leb. destruct (String.compare a b); congruence. Qed.

Lemma sort_head (l : list entry) (m : entry) :
  In m l -> (forall f, In f l -> f = m \/ String.ltb (fname f) (fname m) = true) ->
  exists rest, fold_right insert_desc [] l = m :: rest.
Proof.
  induction l as [|x r IH]; intros Hin Hall; [destruct Hin|].
  simpl. destruct (Hall x (or_introl eq_refl)) as [-> | Hlt].
  - destruct (fold_right insert_desc [] r) as [|y S] eqn:ES; simpl; [eexists; reflexivity|].
    assert (Hy : In y r).
    { apply (Permutation_in y (Permutation_sym (sort_perm r))). rewrite ES. left. reflexivity. }
    destruct (Hall y (or_intror Hy)) as [-> | Hlt'].
    + unfold String.leb. rewrite str_compare_refl. eexists. reflexivity.
    + rewrite (ltb_leb _ _ Hlt'). eexists. reflexivity.
  - destruct Hin as [-> | Hin].
    + unfold String.ltb in Hlt. rewrite str_compare_refl in Hlt. discriminate.
    + destruct IH as [rest Hr]; [exact Hin | intros f Hf; apply Hall; right; exact Hf|].
      rewrite Hr. simpl. rewrite (ltb_not_leb _ _ Hlt). eexists. reflexivity.
Qed.

Lemma latest_first (files : list entry) (m : entry) :
  is_latest files m -> exists rest, sorted_json_desc files = m :: rest.
Proof.
  intros [Hin [Hj Hall]]. apply sort_head.
  - apply filter_In. split; assumption.
  - intros f Hf. apply filter_In in Hf as [Hf Hfj]. exact (Hall f Hf Hfj).
Qed.

(** [load_state] returns the content of the [*.json] file whose name sorts
    last, whatever the order of the directory listing. *)
Theorem load_state_latest (files : list entry) (m : entry) (doc : json)
  (Hm : is_latest files m) (Hc : fcontent m = Parsed doc) :
  _load_state (Dir files) = Output (dumps doc).
Proof.
  destruct (latest_first files m Hm) as [rest Hr].
  unfold _load_state. rewrite Hr, Hc. reflexivity.
Qed.

Lemma load_state_latest_witness :
  _load_state (Dir [recent_snapshot; notes_file; old_snapshot])
  = Output (dumps (JObj [("version", JInt 1)])).
Proof.
  apply (load_state_latest _ recent_snapshot).
  - split; [simpl; auto|]. split; [reflexivity|].
    intros f Hf Hj. simpl in Hf.
    destruct Hf as [<- | [<- | [<- | []]]]; [left; reflexivity | discriminate | right; reflexivity].
  - reflexivity.
Defined.

(** When the newest [*.json] entry cannot be read or decoded, [load_state]
    does not fall back to an older snapshot: it raises, and [execute]
    raises in turn.  For an error [_load_state] catches, the exception is
    the validation error [ToolResult(error=...)] raises on the text naming
    the file. *)
Theorem load_state_no_fallback (files : list entry) (m : entry)
  (Hm : is_latest files m) (Hc : forall doc, fcontent m <> Parsed doc) :
  exists e,
    _load_state (Dir files) = Raised e /\
    (forall sid now, execute sid now (Dir files) [("operation", JStr "load_state")]
                     = (Dir files, Raised (ExecuteValidationError "load_state" e))) /\
    (forall msg, fcontent m = Unreadable (ReadCaught msg) ->
                 e = ValidationError ("Failed to read " ++ path_of (fname m) ++ ": " ++ msg)).
Proof.
  destruct (latest_first files m Hm) as [rest Hr].
  assert (HL : exists e, _load_state (Dir files) = Raised e /\
                 (forall msg, fcontent m = Unreadable (ReadCaught msg) ->
                  e = ValidationError ("Failed to read " ++ path_of (fname m) ++ ": " ++ msg))).
  { unfold _load_state. rewrite Hr.
    destruct (fcontent m) as [doc | [msg | msg] |] eqn:Ec.
    - exfalso. exact (Hc doc eq_refl).
    - eexists. split; [reflexivity|]. intros msg' H. injection H as <-. reflexivity.
    - eexists. split; [reflexivity|]. intros msg' H. discriminate H.
    - eexists. split; [reflexivity|]. intros msg' H. discriminate H. }
  destruct HL as [e [He Hmsg]]. exists e. split; [exact He|]. split; [|exact Hmsg].
  intros sid now. unfold execute, dispatch. cbn -[_load_state]. rewrite He. reflexivity.
Qed.

Lemma load_state_no_fallback_witness :
  exists e,
    _load_state (Dir [recent_snapshot; broken_snapshot]) = Raised e /\
    (forall sid now,
       execute sid now (Dir [recent_snapshot; broken_snapshot]) [("operation", JStr "load_state")]
       = (Dir [recent_snapshot; broken_snapshot],
          Raised (ExecuteValidationError "load_state" e))) /\
    (forall msg, fcontent broken_snapshot = Unreadable (ReadCaught msg) ->
       e = ValidationError ("Failed to read " ++ path_of (fname broken_snapshot) ++ ": " ++ msg)).
Proof.
  apply (load_state_no_fallback _ broken_snapshot).
  - split; [simpl; auto|]. split; [reflexivity|].
    intros f Hf Hj. simpl in Hf.
    destruct Hf as [<- | [<- | []]]; [right; reflexivity | left; reflexivity].
  - intros doc H. discriminate H.
Defined.

Lemma write_file_in (files : list entry) name c size mtime (e : entry) :
  In e (write_file files name c size mtime) ->
  In e files \/ (fname e = name /\ fcontent e = c /\ fsize e = size /\ fmtime e = mtime).
Proof.
  induction files as [|x rest IH]; simpl.
  - intros [<- | []]. right. repeat split.
  - destruct (String.eqb (fname x) name); simpl.
    + intros [<- | H]; [right; repeat split | left; right; exact H].
    + intros [<- | H]; [left; left; reflexivity|].
      destruct (IH H) as [H' | H']; [left; right; exact H' | right; exact H'].
Qed.


Lemma write_file_names (files : list entry) name c size mtime (x : string) :
  In x (map fname (write_file files name c size mtime)) -> x = name \/ In x (map fname files).
Proof.
  intro H. apply in_map_iff in H as [e [<- He]].
  destruct (write_file_in _ _ _ _ _ _ He) as [H' | [H' _]].
  - right. apply in_map. exact H'.
  - left. exact H'.
Qed.

Lemma write_file_nodup (files : list entry) name c size mtime :
  NoDup (map fname files) -> NoDup (map fname (write_file files name c size mtime)).
Proof.
  induction files as [|x rest IH]; simpl; intro Hnd.
  - constructor; [intros []|constructor].
  - inversion Hnd as [|? ? Hx Hr]; subst.
    destruct (String.eqb (fname x) name) eqn:E; simpl.
    + apply String.eqb_eq in E. subst name. constructor; assumption.
    + constructor; [|apply IH; exact Hr].
      intro Hin. destruct (write_file_names _ _ _ _ _ _ Hin) as [H' | H'].
      * apply String.eqb_neq in E. contradiction.
      * contradiction.
Qed.

Lemma filter_nodup_map {A B} (g : A -> B) (p : A -> bool) (l : list A) :
  NoDup (map g l) -> NoDup (map g (filter p l)).
Proof.
  induction l as [|x rest IH]; simpl; intro Hnd; [constructor|].
  inversion Hnd as [|? ? Hx Hr]; subst.
  destruct (p x); simpl; [|apply IH; exact Hr].
  constructor; [|apply IH; exact Hr].
  intro Hin. apply Hx. apply in_map_iff in Hin as [y [Hy Hyin]].
  apply filter_In in Hyin as [Hyin _]. rewrite <- Hy. apply in_map. exact Hyin.
Qed.



(** Saving never gives two files of the directory the same name: a save
    into a directory whose names are distinct leaves them distinct, also
    when the new snapshot overwrites one of the same second. *)
Theorem save_keeps_names_distinct sid now st input
  (Hnd : NoDup (map fname (dir_files st))) :
  NoDup (map fname (dir_files (fst (_save_state sid now st input)))).
Proof.
  destruct (missing_fields input) eqn:Hv.
  - destruct (store_eq_dec_notdir st) as [-> | Hst]; [rewrite save_not_dir by exact Hv; exact Hnd|].
    destruct (dir_at (dir_files st) (snapshot_name now)) eqn:Hd.
    + rewrite (save_dir_taken sid now st input Hv Hst Hd). exact Hnd.
    + rewrite (save_valid_store sid now st input Hv Hst Hd). cbn [fst dir_files].
      apply filter_nodup_map, write_file_nodup. exact Hnd.
  - unfold _save_state. rewrite Hv. exact Hnd.
Qed.

Lemma save_keeps_names_distinct_witness :
  NoDup (map fname (dir_files (fst (_save_state (Some "s1") 1792396800000000
                                      (Dir [old_snapshot; notes_file])
                                      (sample_input [JStr "docs"]))))).
Proof.
  apply save_keeps_names_distinct. simpl.
  constructor; [|constructor; [intros []|constructor]].
  intros [H | []]. discriminate H.
Defined.

Lemma filter_none {A} (p : A -> bool) (l : list A) :
  (forall x, In x l -> p x = false) -> filter p l = [].
Proof.
  induction l as [|x rest IH]; simpl; intro H; [reflexivity|].
  rewrite (H x (or_introl eq_refl)). apply IH. intros y Hy. apply H. right. exact Hy.
Qed.

Lemma filter_all {A} (p : A -> bool) (l : list A) :
  (forall x, In x l -> p x = true) -> filter p l = l.
Proof.
  induction l as [|x rest IH]; simpl; intro H; [reflexivity|].
  rewrite (H x (or_introl eq_refl)), IH; [reflexivity|]. intros y Hy. apply H. right. exact Hy.
Qed.

Lemma filter_comm {A} (p q : A -> bool) (l : list A) :
  filter p (filter q l) = filter q (filter p l).
Proof.
  induction l as [|x rest IH]; simpl; [reflexivity|].
  destruct (p x) eqn:Ep, (q x) eqn:Eq; simpl; rewrite ?Ep, ?Eq, IH; reflexivity.
Qed.

Lemma filter_length_split {A} (p : A -> bool) (l : list A) :
  List.length l = (List.length (filter (fun x => negb (p x)) l) + List.length (filter p l))%nat.
Proof.
  induction l as [|x rest IH]; simpl; [reflexivity|].
  destruct (p x); simpl; lia.
Qed.

Lemma write_file_named (files : list entry) name c size mtime :
  NoDup (map fname files) ->
  exists u, filter (fun e => String.eqb (fname e) name) (write_file files name c size mtime)
            = [mkEntry name c size mtime u].
Proof.
  induction files as [|x rest IH]; simpl; intro Hnd.
  - exists true. rewrite String.eqb_refl. reflexivity.
  - inversion Hnd as [|? ? Hx Hr]; subst.
    destruct (String.eqb (fname x) name) eqn:E; simpl.
    + exists (unlink_ok x). rewrite String.eqb_refl. f_equal.
      apply String.eqb_eq in E. subst name.
      apply filter_none. intros y Hy. apply String.eqb_neq. intro Hyx.
      apply Hx. rewrite <- Hyx. apply in_map. exact Hy.
    + rewrite E. apply IH. exact Hr.
Qed.

Lemma write_file_keeps (files : list entry) name c size mtime (f : entry) :
  In f files -> fname f <> name -> In f (write_file files name c size mtime).
Proof.
  induction files as [|x rest IH]; simpl; [intros []|].
  intros Hin Hne. destruct (String.eqb (fname x) name) eqn:E.
  - destruct Hin as [<- | Hin].
    + apply String.eqb_eq in E. contradiction.
    + right. exact Hin.
  - destruct Hin as [<- | Hin]; [left; reflexivity | right; apply IH; assumption].
Qed.

(** A save removes no file other than the snapshots it prunes.  Unless
    it raises because a subdirectory has the new snapshot's name (and
    then changes nothing), every file that is not a [*.json], is not
    older than seven days or cannot be unlinked is still there afterwards
    (unless the new snapshot took its name), and every file afterwards is
    such a survivor or the new snapshot. *)
Theorem save_keeps_unpruned sid now files input (Hv : missing_fields input = []) :
  (dir_at files (snapshot_name now) = true /\
   _save_state sid now (Dir files) input
   = (Dir files, Raised (IsADirectoryError (path_of (snapshot_name now))))) \/
  exists files',
    fst (_save_state sid now (Dir files) input) = Dir files' /\
    (forall f, In f files -> fname f <> snapshot_name now -> pruneable now f = false ->
               In f files') /\
    (forall e, In e files' ->
               (In e files /\ pruneable now e = false) \/
               (fname e = snapshot_name now /\ fcontent e = Parsed (state_doc input now sid) /\
                fmtime e = now)).
Proof.
  destruct (dir_at files (snapshot_name now)) eqn:Hd.
  - left. split; [reflexivity|]. apply (save_dir_taken sid now (Dir files) input Hv); [discriminate | exact Hd].
  - right. rewrite (save_valid_store sid now (Dir files) input Hv ltac:(discriminate) Hd).
    cbn [fst dir_files]. eexists; split; [reflexivity|]. split.
    + intros f Hf Hn Hp. apply filter_In. split; [apply write_file_keeps; assumption|].
      rewrite Hp. reflexivity.
    + intros e He. apply filter_In in He as [He Hp].
      destruct (write_file_in _ _ _ _ _ _ He) as [He' | [Hn [Hc [_ Ht]]]].
      * left. split; [exact He'|]. destruct (pruneable now e); [discriminate | reflexivity].
      * right. repeat split; assumption.
Qed.

Lemma save_keeps_unpruned_witness :
  let files := [old_snapshot; notes_file; recent_snapshot; locked_snapshot] in
  let now := 1792396800000000%Z in
  let input := sample_input [JStr "docs"] in
  (dir_at files (snapshot_name now) = true /\
   _save_state (Some "s1") now (Dir files) input
   = (Dir files, Raised (IsADirectoryError (path_of (snapshot_name now))))) \/
  exists files',
    fst (_save_state (Some "s1") now (Dir files) input) = Dir files' /\
    (forall f, In f files -> fname f <> snapshot_name now -> pruneable now f = false ->
               In f files') /\
    (forall e, In e files' ->
               (In e files /\ pruneable now e = false) \/
               (fname e = snapshot_name now /\
                fcontent e = Parsed (state_doc input now (Some "s1")) /\ fmtime e = now)).
Proof. intros files now input. apply save_keeps_unpruned. vm_compute. reflexivity. Defined.

(** [_prune_old_states] reports exactly the number of files it removed, and
    a second pass at the same clock removes nothing more. *)
Theorem prune_count_and_idempotent (files : list entry) (now : Z) :
  Z.of_nat (List.length files)
    = (Z.of_nat (List.length (fst (_prune_old_states files now)))
       + snd (_prune_old_states files now))%Z /\
  _prune_old_states (fst (_prune_old_states files now)) now
    = (fst (_prune_old_states files now), 0%Z).
Proof.
  rewrite !prune_spec. cbn [fst snd]. split.
  - rewrite (filter_length_split (pruneable now) files) at 1. lia.
  - set (F := filter (fun f => negb (pruneable now f)) files).
    assert (HF : forall x, In x F -> pruneable now x = false).
    { intros x Hx. apply filter_In in Hx as [_ Hx].
      destruct (pruneable now x); [discriminate | reflexivity]. }
    rewrite (filter_none (pruneable now) F HF).
    rewrite (filter_all (fun f => negb (pruneable now f)) F)
      by (intros x Hx; rewrite (HF x Hx); reflexivity).
    reflexivity.
Qed.












Lemma cycle_checked : cycle_ok (Z.to_nat 146096) 0 (doe_civil 0) = true.
Proof. vm_compute. reflexivity. Qed.

Lemma cycle_ok_spec (n : nat) : forall (i : Z) (a : Z * Z * Z),
  cycle_ok n i a = true -> a = doe_civil i ->
  forall j, (i <= j < i + Z.of_nat n)%Z ->
  (civil_key (doe_civil j) < civil_key (doe_civil (j + 1)))%Z /\
  fields_ok (doe_civil (j + 1)) = true.
Proof.
  induction n as [|k IH]; intros i a H Ha j Hj; [lia|].
  cbn [cycle_ok] in H. apply andb_prop in H as [H Hrest]. apply andb_prop in H as [Hlt Hf].
  destruct (Z.eq_dec j i) as [-> | Hne].
  - subst a. split; [apply Z.ltb_lt; exact Hlt | exact Hf].
  - apply (IH (i + 1)%Z (doe_civil (i + 1))); [exact Hrest | reflexivity | lia].
Qed.

Lemma cycle_step (j : Z) : (0 <= j < 146096)%Z ->
  (civil_key (doe_civil j) < civil_key (doe_civil (j + 1)))%Z /\
  fields_ok (doe_civil (j + 1)) = true.
Proof.
  intro Hj. apply (cycle_ok_spec _ 0 (doe_civil 0) cycle_checked eq_refl).
  rewrite Z2Nat.id by lia. lia.
Qed.

Lemma cycle_fields (j : Z) : (0 <= j <= 146096)%Z -> fields_ok (doe_civil j) = true.
Proof.
  intro Hj. destruct (Z.eq_dec j 0) as [-> | Hne]; [vm_compute; reflexivity|].
  replace j with ((j - 1) + 1)%Z by lia. apply cycle_step. lia.
Qed.

Lemma cycle_mono (x y : Z) : (0 <= x < y)%Z -> (y <= 146096)%Z ->
  (civil_key (doe_civil x) < civil_key (doe_civil y))%Z.
Proof.
  intros Hx Hy.
  assert (H : forall k : nat, (x + Z.of_nat (S k) <= 146096)%Z ->
            (civil_key (doe_civil x) < civil_key (doe_civil (x + Z.of_nat (S k))))%Z).
  { induction k as [|k IH]; intro Hk.
    - apply cycle_step. lia.
    - replace (x + Z.of_nat (S (S k)))%Z with ((x + Z.of_nat (S k)) + 1)%Z by lia.
      etransitivity; [apply IH; lia | apply cycle_step; lia]. }
  replace y with (x + Z.of_nat (S (Z.to_nat (y - x - 1))))%Z by lia.
  apply H. lia.
Qed.

Lemma civil_from_days_cycle (days : Z) :
  civil_from_days days =
  let era := ((days + 719468) / 146097)%Z in
  let '(y, m, d) := doe_civil (days + 719468 - era * 146097) in
  ((y + era * 400)%Z, m, d).
Proof.
  unfold civil_from_days, doe_civil. cbv zeta.
  destruct (_ <=? 2)%Z; f_equal; f_equal; ring.
Qed.

Lemma civil_key_days (days : Z) :
  civil_key (civil_from_days days) =
  (civil_key (doe_civil ((days + 719468) mod 146097)) + 4000000 * ((days + 719468) / 146097))%Z
  /\ fields_ok (civil_from_days days) = fields_ok (doe_civil ((days + 719468) mod 146097)).
Proof.
  rewrite civil_from_days_cycle. cbv zeta.
  rewrite (Z.mod_eq (days + 719468) 146097) by lia.
  replace (days + 719468 - 146097 * ((days + 719468) / 146097))%Z
    with (days + 719468 - (days + 719468) / 146097 * 146097)%Z by ring.
  destruct (doe_civil _) as [[y m] d]. unfold civil_key, fields_ok. split; [ring | reflexivity].
Qed.

Lemma days_fields (days : Z) : fields_ok (civil_from_days days) = true.
Proof.
  rewrite (proj2 (civil_key_days days)). apply cycle_fields.
  pose proof (Z.mod_pos_bound (days + 719468) 146097). lia.
Qed.

Lemma days_mono (d1 d2 : Z) : (d1 < d2)%Z ->
  (civil_key (civil_from_days d1) < civil_key (civil_from_days d2))%Z.
Proof.
  intro Hlt. rewrite (proj1 (civil_key_days d1)), (proj1 (civil_key_days d2)).
  set (z1 := (d1 + 719468)%Z). set (z2 := (d2 + 719468)%Z).
  pose proof (Z.mod_pos_bound z1 146097) as B1. pose proof (Z.mod_pos_bound z2 146097) as B2.
  pose proof (Z.div_mod z1 146097) as E1. pose proof (Z.div_mod z2 146097) as E2.
  assert (Hle : (z1 / 146097 <= z2 / 146097)%Z) by (apply Z.div_le_mono; lia).
  destruct (Z.eq_dec (z1 / 146097) (z2 / 146097)) as [He | Hne].
  - rewrite He. assert (z1 mod 146097 < z2 mod 146097)%Z by lia.
    pose proof (cycle_mono (z1 mod 146097) (z2 mod 146097)). lia.
  - assert (Hk1 : (civil_key (doe_civil (z1 mod 146097)) <= civil_key (doe_civil 146096))%Z).
    { destruct (Z.eq_dec (z1 mod 146097) 146096) as [-> | H]; [lia|].
      apply Z.lt_le_incl, cycle_mono; lia. }
    assert (Hk2 : (civil_key (doe_civil 0) <= civil_key (doe_civil (z2 mod 146097)))%Z).
    { destruct (Z.eq_dec (z2 mod 146097) 0) as [-> | H]; [lia|].
      apply Z.lt_le_incl, cycle_mono; lia. }
    assert (Hc : civil_key (doe_civil 146096) = 4000229%Z) by (vm_compute; reflexivity).
    assert (Hc0 : civil_key (doe_civil 0) = 301%Z) by (vm_compute; reflexivity).
    lia.
Qed.

Lemma pads_ok_spec (w n : nat) : forall i, pads_ok w n i = true ->
  forall x, (i <= x < i + Z.of_nat n)%Z -> pad w x = fixed w x.
Proof.
  induction n as [|k IH]; intros i H x Hx; [lia|].
  cbn [pads_ok] in H. apply andb_prop in H as [He Hr].
  destruct (Z.eq_dec x i) as [-> | Hne]; [apply String.eqb_eq; exact He|].
  apply (IH (i + 1)%Z Hr). lia.
Qed.

Lemma pad2_fixed (x : Z) : (0 <= x < 100)%Z -> pad 2 x = fixed 2 x.
Proof.
  intro Hx. apply (pads_ok_spec 2 100 0); [vm_compute; reflexivity | lia].
Qed.

Lemma pad4_fixed (x : Z) : (0 <= x < 10000)%Z -> pad 4 x = fixed 4 x.
Proof.
  intro Hx. apply (pads_ok_spec 4 (Z.to_nat 10000) 0); [vm_compute; reflexivity|].
  rewrite Z2Nat.id by lia. lia.
Qed.

Lemma digit_compare (x y : Z) :
  Ascii.compare (digit x) (digit y) = Z.compare (x mod 10) (y mod 10).
Proof.
  unfold digit, Ascii.compare.
  pose proof (Z.mod_pos_bound x 10) as Bx. pose proof (Z.mod_pos_bound y 10) as By.
  unfold ascii_of_nat. rewrite !N_ascii_embedding by lia.
  rewrite <- N2Z.inj_compare, !nat_N_Z, !Nat2Z.inj_add, !Z2Nat.id by lia.
  apply Z.add_compare_mono_l.
Qed.

Lemma compare_div_mod (x y : Z) : (0 <= x)%Z -> (0 <= y)%Z ->
  Z.compare x y =
  match Z.compare (x / 10) (y / 10) with Eq => Z.compare (x mod 10) (y mod 10) | c => c end.
Proof.
  intros Hx Hy.
  pose proof (Z.div_mod x 10) as Ex. pose proof (Z.div_mod y 10) as Ey.
  pose proof (Z.mod_pos_bound x 10) as Bx. pose proof (Z.mod_pos_bound y 10) as By.
  destruct (Z.compare_spec (x / 10) (y / 10)) as [H | H | H].
  - destruct (Z.compare_spec (x mod 10) (y mod 10)); apply Z.compare_eq_iff || apply Z.compare_lt_iff || apply Z.compare_gt_iff; lia.
  - apply Z.compare_lt_iff. lia.
  - apply Z.compare_gt_iff. lia.
Qed.

Lemma fixed_compare (w : nat) : forall x y r1 r2,
  (0 <= x < 10 ^ Z.of_nat w)%Z -> (0 <= y < 10 ^ Z.of_nat w)%Z ->
  String.compare (fixed w x ++ r1) (fixed w y ++ r2) =
  match Z.compare x y with Eq => String.compare r1 r2 | c => c end.
Proof.
  induction w as [|k IH]; intros x y r1 r2 Hx Hy.
  - simpl in Hx, Hy. replace x with 0%Z by lia. replace y with 0%Z by lia. reflexivity.
  - rewrite Nat2Z.inj_succ, Z.pow_succ_r in Hx, Hy by lia.
    cbn [fixed]. rewrite !str_app_assoc. cbn [append].
    rewrite IH by (split; [apply Z.div_pos; lia | apply Z.div_lt_upper_bound; lia]).
    rewrite (compare_div_mod x y) by lia.
    cbn [String.compare]. rewrite digit_compare.
    destruct (Z.compare (x / 10) (y / 10)); reflexivity.
Qed.

Lemma sep_compare (c : ascii) (x y : string) :
  String.compare (String c x) (String c y) = String.compare x y.
Proof. simpl. unfold Ascii.compare. rewrite N.compare_refl. reflexivity. Qed.

Lemma lex_compare (hi1 hi2 lo1 lo2 B : Z) :
  (0 <= lo1 < B)%Z -> (0 <= lo2 < B)%Z ->
  Z.compare (hi1 * B + lo1) (hi2 * B + lo2) =
  match Z.compare hi1 hi2 with Eq => Z.compare lo1 lo2 | c => c end.
Proof.
  intros H1 H2. destruct (Z.compare_spec hi1 hi2) as [-> | H | H].
  - destruct (Z.compare_spec lo1 lo2).
    + apply Z.compare_eq_iff. lia.
    + apply Z.compare_lt_iff. lia.
    + apply Z.compare_gt_iff. lia.
  - apply Z.compare_lt_iff. nia.
  - apply Z.compare_gt_iff. nia.
Qed.

Lemma fields_name_compare y1 m1 d1 h1 n1 s1 y2 m2 d2 h2 n2 s2 :
  (0 <= y1 < 10000)%Z -> (0 <= y2 < 10000)%Z ->
  (0 <= m1 < 100)%Z -> (0 <= m2 < 100)%Z -> (0 <= d1 < 100)%Z -> (0 <= d2 < 100)%Z ->
  (0 <= h1 < 100)%Z -> (0 <= h2 < 100)%Z -> (0 <= n1 < 100)%Z -> (0 <= n2 < 100)%Z ->
  (0 <= s1 < 100)%Z -> (0 <= s2 < 100)%Z ->
  String.compare (fields_name y1 m1 d1 h1 n1 s1) (fields_name y2 m2 d2 h2 n2 s2) =
  Z.compare (((((y1 * 100 + m1) * 100 + d1) * 100 + h1) * 100 + n1) * 100 + s1)
            (((((y2 * 100 + m2) * 100 + d2) * 100 + h2) * 100 + n2) * 100 + s2).
Proof.
  intros. unfold fields_name.
  rewrite !lex_compare by nia.
  rewrite fixed_compare by (simpl; lia). cbn [append]. rewrite sep_compare.
  rewrite fixed_compare by (simpl; lia). cbn [append]. rewrite sep_compare.
  rewrite fixed_compare by (simpl; lia). cbn [append]. rewrite sep_compare.
  rewrite fixed_compare by (simpl; lia). cbn [append]. rewrite sep_compare.
  rewrite fixed_compare by (simpl; lia). cbn [append]. rewrite sep_compare.
  rewrite fixed_compare by (simpl; lia).
  destruct (Z.compare y1 y2), (Z.compare m1 m2), (Z.compare d1 d2),
           (Z.compare h1 h2), (Z.compare n1 n2), (Z.compare s1 s2); reflexivity.
Qed.

Lemma name_as_fields (now y m d : Z) :
  civil_from_days (now / us_per_day) = (y, m, d) ->
  (0 <= y < 10000)%Z -> fields_ok (y, m, d) = true ->
  let secs := ((now mod us_per_day) / us_per_second)%Z in
  snapshot_name now = fields_name y m d (secs / 3600) ((secs mod 3600) / 60) (secs mod 60).
Proof.
  intros E Hy Hf secs.
  unfold fields_ok in Hf. apply andb_prop in Hf as [Hf Hd2]. apply andb_prop in Hf as [Hf Hd1].
  apply andb_prop in Hf as [Hm1 Hm2].
  apply Z.leb_le in Hm1, Hm2, Hd1, Hd2.
  assert (Hs : (0 <= secs < 86400)%Z).
  { unfold secs, us_per_day, us_per_second.
    pose proof (Z.mod_pos_bound now (86400 * 1000000)).
    split; [apply Z.div_pos; lia | apply Z.div_lt_upper_bound; lia]. }
  unfold snapshot_name, strftime_name, date_part, clock. rewrite E. fold secs.
  rewrite pad4_fixed by lia.
  rewrite (pad2_fixed m), (pad2_fixed d) by lia.
  rewrite (pad2_fixed (secs / 3600)) by (split; [apply Z.div_pos | apply Z.div_lt_upper_bound]; lia).
  rewrite (pad2_fixed ((secs mod 3600) / 60))
    by (pose proof (Z.mod_pos_bound secs 3600);
        split; [apply Z.div_pos | apply Z.div_lt_upper_bound]; lia).
  rewrite (pad2_fixed (secs mod 60)) by (pose proof (Z.mod_pos_bound secs 60); lia).
  unfold fields_name. rewrite !str_app_assoc. reflexivity.
Qed.

Lemma hms_mono (t1 t2 : Z) : (0 <= t1 < t2)%Z -> (t2 < 86400)%Z -> (hms t1 < hms t2)%Z.
Proof.
  intros H1 H2. unfold hms.
  pose proof (Z.div_mod t1 3600). pose proof (Z.div_mod t2 3600).
  pose proof (Z.mod_pos_bound t1 3600). pose proof (Z.mod_pos_bound t2 3600).
  pose proof (Z.div_mod (t1 mod 3600) 60). pose proof (Z.div_mod (t2 mod 3600) 60).
  pose proof (Z.mod_pos_bound (t1 mod 3600) 60). pose proof (Z.mod_pos_bound (t2 mod 3600) 60).
  assert (E1 : (t1 mod 60 = (t1 mod 3600) mod 60)%Z).
  { rewrite (Z.mod_eq t1 3600) by lia. replace (t1 - 3600 * (t1 / 3600))%Z
      with (t1 + (- (t1 / 3600) * 60) * 60)%Z by ring. rewrite Z.mod_add by lia. reflexivity. }
  assert (E2 : (t2 mod 60 = (t2 mod 3600) mod 60)%Z).
  { rewrite (Z.mod_eq t2 3600) by lia. replace (t2 - 3600 * (t2 / 3600))%Z
      with (t2 + (- (t2 / 3600) * 60) * 60)%Z by ring. rewrite Z.mod_add by lia. reflexivity. }
  rewrite E1, E2.
  assert (t1 / 3600 <= t2 / 3600)%Z by (apply Z.div_le_mono; lia).
  destruct (Z.eq_dec (t1 / 3600) (t2 / 3600)) as [He | Hne].
  - assert ((t1 mod 3600) / 60 <= (t2 mod 3600) / 60)%Z by (apply Z.div_le_mono; lia).
    destruct (Z.eq_dec ((t1 mod 3600) / 60) ((t2 mod 3600) / 60)); lia.
  - lia.
Qed.

Lemma hms_range (t : Z) : (0 <= t < 86400)%Z -> (0 <= hms t < 1000000)%Z.
Proof.
  intro H. unfold hms.
  assert (0 <= t / 3600 < 24)%Z by (split; [apply Z.div_pos | apply Z.div_lt_upper_bound]; lia).
  pose proof (Z.mod_pos_bound t 3600). pose proof (Z.mod_pos_bound t 60).
  assert (0 <= (t mod 3600) / 60 < 60)%Z by (split; [apply Z.div_pos | apply Z.div_lt_upper_bound]; lia).
  lia.
Qed.

Lemma name_key_seconds (now : Z) :
  name_key now =
  (civil_key (civil_from_days ((now / us_per_second) / 86400)) * 1000000
   + hms ((now / us_per_second) mod 86400))%Z.
Proof.
  unfold name_key, us_per_day, us_per_second.
  rewrite (Z.mul_comm 86400 1000000).
  rewrite <- (Z.div_div now 1000000 86400) by lia.
  rewrite (Z.rem_mul_r now 1000000 86400) by lia.
  rewrite (Z.mul_comm 1000000 ((now / 1000000) mod 86400)), Z.div_add by lia.
  rewrite (Z.div_small (now mod 1000000) 1000000) by (apply Z.mod_pos_bound; lia).
  reflexivity.
Qed.

Lemma name_key_compare (a b : Z) :
  Z.compare (name_key a) (name_key b) = Z.compare (a / us_per_second) (b / us_per_second).
Proof.
  rewrite !name_key_seconds.
  set (sa := (a / us_per_second)%Z). set (sb := (b / us_per_second)%Z).
  assert (Hmono : forall s1 s2, (s1 < s2)%Z ->
    (civil_key (civil_from_days (s1 / 86400)) * 1000000 + hms (s1 mod 86400)
     < civil_key (civil_from_days (s2 / 86400)) * 1000000 + hms (s2 mod 86400))%Z).
  { intros s1 s2 Hlt.
    pose proof (Z.div_mod s1 86400). pose proof (Z.div_mod s2 86400).
    pose proof (Z.mod_pos_bound s1 86400 ltac:(lia)) as B1.
    pose proof (Z.mod_pos_bound s2 86400 ltac:(lia)) as B2.
    pose proof (hms_range (s1 mod 86400) B1). pose proof (hms_range (s2 mod 86400) B2).
    assert (s1 / 86400 <= s2 / 86400)%Z by (apply Z.div_le_mono; lia).
    destruct (Z.eq_dec (s1 / 86400) (s2 / 86400)) as [He | Hne].
    - rewrite He. pose proof (hms_mono (s1 mod 86400) (s2 mod 86400)). lia.
    - pose proof (days_mono (s1 / 86400) (s2 / 86400)). lia. }
  destruct (Z.compare_spec sa sb) as [-> | H | H].
  - apply Z.compare_refl.
  - apply Z.compare_lt_iff. apply Hmono. exact H.
  - apply Z.compare_gt_iff. apply Hmono. exact H.
Qed.

Lemma date_fields_in_range (now : Z) : (0 <= now <= max_now)%Z ->
  exists y m d, civil_from_days (now / us_per_day) = (y, m, d) /\
    (1970 <= y <= 9999)%Z /\ fields_ok (y, m, d) = true.
Proof.
  intro Hr. pose proof (days_fields (now / us_per_day)) as Hf.
  assert (HD : (0 <= now / us_per_day <= 2932896)%Z).
  { unfold max_now, us_per_day, us_per_second in *.
    split; [apply Z.div_pos; lia|].
    assert (now / (86400 * 1000000) < 2932897)%Z by (apply Z.div_lt_upper_bound; lia). lia. }
  assert (Klo : (civil_key (civil_from_days 0) <= civil_key (civil_from_days (now / us_per_day)))%Z).
  { destruct (Z.eq_dec (now / us_per_day) 0) as [-> | H]; [lia|].
    apply Z.lt_le_incl, days_mono. lia. }
  assert (Khi : (civil_key (civil_from_days (now / us_per_day)) <= civil_key (civil_from_days 2932896))%Z).
  { destruct (Z.eq_dec (now / us_per_day) 2932896) as [-> | H]; [lia|].
    apply Z.lt_le_incl, days_mono. lia. }
  replace (civil_key (civil_from_days 0)) with 19700101%Z in Klo by (vm_compute; reflexivity).
  replace (civil_key (civil_from_days 2932896)) with 99991231%Z in Khi by (vm_compute; reflexivity).
  destruct (civil_from_days (now / us_per_day)) as [[y m] d].
  exists y, m, d. split; [reflexivity|]. split; [|exact Hf].
  unfold fields_ok in Hf. apply andb_prop in Hf as [Hf Hd2]. apply andb_prop in Hf as [Hf Hd1].
  apply andb_prop in Hf as [Hm1 Hm2]. apply Z.leb_le in Hm1, Hm2, Hd1, Hd2.
  unfold civil_key in Klo, Khi. lia.
Qed.

Lemma snapshot_name_key (now : Z) : (0 <= now <= max_now)%Z ->
  exists y m d hh mm ss,
    snapshot_name now = fields_name y m d hh mm ss /\
    name_key now = (((((y * 100 + m) * 100 + d) * 100 + hh) * 100 + mm) * 100 + ss)%Z /\
    (0 <= y < 10000)%Z /\ (0 <= m < 100)%Z /\ (0 <= d < 100)%Z /\
    (0 <= hh < 100)%Z /\ (0 <= mm < 100)%Z /\ (0 <= ss < 100)%Z.
Proof.
  intro Hr. destruct (date_fields_in_range now Hr) as [y [m [d [E [Hy Hf]]]]].
  pose proof (name_as_fields now y m d E ltac:(lia) Hf) as N. cbv zeta in N.
  set (secs := ((now mod us_per_day) / us_per_second)%Z) in N.
  assert (Hs : (0 <= secs < 86400)%Z).
  { unfold secs, us_per_day, us_per_second.
    pose proof (Z.mod_pos_bound now (86400 * 1000000) ltac:(lia)).
    split; [apply Z.div_pos; lia | apply Z.div_lt_upper_bound; lia]. }
  exists y, m, d, (secs / 3600)%Z, ((secs mod 3600) / 60)%Z, (secs mod 60)%Z.
  split; [exact N|]. split.
  - unfold name_key. rewrite E. fold secs. unfold civil_key, hms. ring.
  - unfold fields_ok in Hf. apply andb_prop in Hf as [Hf Hd2]. apply andb_prop in Hf as [Hf Hd1].
    apply andb_prop in Hf as [Hm1 Hm2]. apply Z.leb_le in Hm1, Hm2, Hd1, Hd2.
    assert (0 <= secs / 3600 < 24)%Z by (split; [apply Z.div_pos | apply Z.div_lt_upper_bound]; lia).
    pose proof (Z.mod_pos_bound secs 3600 ltac:(lia)). pose proof (Z.mod_pos_bound secs 60 ltac:(lia)).
    assert (0 <= (secs mod 3600) / 60 < 60)%Z
      by (split; [apply Z.div_pos | apply Z.div_lt_upper_bound]; lia).
    lia.
Qed.

Lemma snapshot_name_compare (a b : Z)
  (Ha : (0 <= a <= max_now)%Z) (Hb : (0 <= b <= max_now)%Z) :
  String.compare (snapshot_name a) (snapshot_name b)
  = Z.compare (a / us_per_second) (b / us_per_second).
Proof.
  destruct (snapshot_name_key a Ha) as [y1 [m1 [d1 [h1 [n1 [s1 [Na [Ka R1]]]]]]]].
  destruct (snapshot_name_key b Hb) as [y2 [m2 [d2 [h2 [n2 [s2 [Nb [Kb R2]]]]]]]].
  rewrite Na, Nb, fields_name_compare by lia.
  rewrite <- Ka, <- Kb. apply name_key_compare.
Qed.

(** Snapshot names sort like the times they were taken at: for two clock
    readings within [datetime]'s range, comparing the file names
    [_save_state] writes compares the whole seconds elapsed. *)
Theorem snapshot_names_follow_time (a b : Z)
  (Ha : (0 <= a <= max_now)%Z) (Hb : (0 <= b <= max_now)%Z) :
  String.compare (snapshot_name a) (snapshot_name b)
  = Z.compare (a / us_per_second) (b / us_per_second).
Proof. exact (snapshot_name_compare a b Ha Hb). Qed.

Lemma snapshot_names_follow_time_witness :
  String.compare (snapshot_name 1792393199999999) (snapshot_name 1792393200000000)
  = Z.compare (1792393199999999 / us_per_second) (1792393200000000 / us_per_second).
Proof.
  apply snapshot_names_follow_time; unfold max_now; lia.
Defined.

Lemma str_lt_trans (s1 s2 s3 : string) :
  String.compare s1 s2 = Lt -> String.compare s2 s3 = Lt -> String.compare s1 s3 = Lt.
Proof.
  revert s2 s3. induction s1 as [|a s1 IH]; intros [|b s2] [|c s3] H1 H2;
    cbn [String.compare] in *; try discriminate; try reflexivity.
  unfold Ascii.compare in *.
  destruct (N.compare (N_of_ascii a) (N_of_ascii b)) eqn:E1; try discriminate;
  destruct (N.compare (N_of_ascii b) (N_of_ascii c)) eqn:E2; try discriminate;
  repeat match goal with
         | H : N.compare _ _ = Eq |- _ => apply N.compare_eq_iff in H
         | H : N.compare _ _ = Lt |- _ => apply N.compare_lt_iff in H
         end;
  [ rewrite E1, E2, N.compare_refl; eapply IH; eassumption
  | rewrite E1, (proj2 (N.compare_lt_iff _ _) E2); reflexivity
  | rewrite <- E2, (proj2 (N.compare_lt_iff _ _) E1); reflexivity
  | rewrite (proj2 (N.compare_lt_iff _ _) (N.lt_trans _ _ _ E1 E2)); reflexivity ].
Qed.

Lemma str_ltb_trans (s1 s2 s3 : string) :
  String.ltb s1 s2 = true -> String.ltb s2 s3 = true -> String.ltb s1 s3 = true.
Proof.
  unfold String.ltb.
  destruct (String.compare s1 s2) eqn:E1; try discriminate.
  destruct (String.compare s2 s3) eqn:E2; try discriminate.
  rewrite (str_lt_trans s1 s2 s3 E1 E2). reflexivity.
Qed.

Lemma str_ltb_irrefl (s : string) : String.ltb s s = false.
Proof. unfold String.ltb. rewrite str_compare_refl. reflexivity. Qed.

Lemma snapshot_name_json (now : Z) (f : entry) : fname f = snapshot_name now -> is_json f = true.
Proof. intro H. unfold is_json. rewrite H. apply ends_with_app. Qed.

Lemma save_as_latest sid now st input :
  missing_fields input = [] -> before st (snapshot_name now) ->
  exists files,
    fst (_save_state sid now st input) = Dir files /\
    is_latest files (saved_entry sid now input) /\
    forall name, String.ltb (snapshot_name now) name = true -> before (Dir files) name.
Proof.
  intros Hv [Hst Hb].
  assert (Hfresh : ~ In (snapshot_name now) (map fname (dir_files st))).
  { intro Hin. apply in_map_iff in Hin as [f [Hf Hin]].
    pose proof (Hb f Hin (snapshot_name_json now f Hf)) as Hlt.
    rewrite Hf, str_ltb_irrefl in Hlt. discriminate. }
  rewrite (save_valid_effect sid now input st Hv Hst Hfresh). cbn [fst].
  eexists; split; [reflexivity|]. split; [split; [|split]|].
  - apply in_or_app. right. left. reflexivity.
  - apply saved_entry_json.
  - intros f Hf Hj. apply in_app_or in Hf as [Hf | [<- | []]]; [|left; reflexivity].
    right. apply filter_In in Hf as [Hf _]. exact (Hb f Hf Hj).
  - intros name Hname. split; [discriminate|]. intros f Hf Hj. cbn [dir_files] in Hf.
    apply in_app_or in Hf as [Hf | [<- | []]]; [|exact Hname].
    apply filter_In in Hf as [Hf _]. exact (str_ltb_trans _ _ _ (Hb f Hf Hj) Hname).
Qed.

Lemma later_name (a b : Z) :
  (0 <= a <= max_now)%Z -> (0 <= b <= max_now)%Z ->
  (a / us_per_second < b / us_per_second)%Z ->
  String.ltb (snapshot_name a) (snapshot_name b) = true.
Proof.
  intros Ha Hb Hlt. unfold String.ltb. rewrite (snapshot_name_compare a b Ha Hb).
  rewrite (proj2 (Z.compare_lt_iff _ _) Hlt). reflexivity.
Qed.

Lemma dir_at_filter (p : entry -> bool) (files : list entry) (name : string) :
  dir_at files name = false -> dir_at (filter p files) name = false.
Proof.
  unfold dir_at. induction files as [|e rest IH]; cbn [filter existsb]; [reflexivity|].
  intro H. apply orb_false_iff in H as [He Hr].
  destruct (p e); cbn [existsb]; rewrite ?He; apply IH; exact Hr.
Qed.

Lemma dir_at_write (files : list entry) name c size mtime :
  dir_at files name = false ->
  (match c with Directory => false | _ => true end) = true ->
  dir_at (write_file files name c size mtime) name = false.
Proof.
  unfold dir_at. intros H Hc. induction files as [|e rest IH]; cbn [write_file existsb].
  - destruct c; [| |discriminate]; unfold is_directory; cbn [fcontent fname];
      rewrite andb_false_r; reflexivity.
  - cbn [existsb] in H. apply orb_false_iff in H as [He Hr].
    destruct (String.eqb (fname e) name) eqn:E; cbn [existsb]; rewrite ?E.
    + unfold is_directory at 1. cbn [fcontent].
      destruct c; [| |discriminate]; rewrite andb_false_r; exact Hr.
    + apply IH. exact Hr.
Qed.

(** Two valid saves in the same second write the same file: the second
    overwrites the first, so the directory ends up with exactly one file of
    that name, holding the second state.  When both saves read the same
    clock the second has nothing left to prune. *)
Theorem same_second_last_wins sid1 sid2 now1 now2 st input1 input2
  (Hr1 : (0 <= now1 <= max_now)%Z) (Hr2 : (0 <= now2 <= max_now)%Z)
  (Hle : (now1 <= now2)%Z) (Hsec : (now1 / us_per_second = now2 / us_per_second)%Z)
  (Hst : st <> NotDir) (Hd : dir_at (dir_files st) (snapshot_name now1) = false)
  (Hnd : NoDup (map fname (dir_files st)))
  (H1 : missing_fields input1 = []) (H2 : missing_fields input2 = []) :
  snapshot_name now1 = snapshot_name now2 /\
  exists files n,
    _save_state sid2 now2 (fst (_save_state sid1 now1 st input1)) input2
      = (Dir files, Output (save_message (path_of (snapshot_name now2)) n)) /\
    (now1 = now2 -> n = 0%Z) /\
    exists e, filter (fun e => String.eqb (fname e) (snapshot_name now2)) files = [e] /\
      fcontent e = Parsed (state_doc input2 now2 sid2).
Proof.
  assert (Hname : snapshot_name now1 = snapshot_name now2).
  { apply String.compare_eq_iff. rewrite (snapshot_name_compare now1 now2 Hr1 Hr2), Hsec.
    apply Z.compare_refl. }
  split; [exact Hname|].
  rewrite (save_valid_store sid1 now1 st input1 H1 Hst Hd). cbn [fst].
  rewrite <- Hname.
  set (W1 := write_file _ (snapshot_name now1) _ _ now1).
  set (F1 := filter (fun f => negb (pruneable now1 f)) W1).
  assert (Hnd1 : NoDup (map fname F1)) by (apply filter_nodup_map, write_file_nodup; exact Hnd).
  assert (Hd1 : dir_at (dir_files (Dir F1)) (snapshot_name now1) = false).
  { cbn [dir_files]. apply dir_at_filter, dir_at_write; [exact Hd | reflexivity]. }
  rewrite Hname in Hd1 |- *.
  rewrite (save_valid_store sid2 now2 (Dir F1) input2 H2 ltac:(discriminate) Hd1).
  cbn [dir_files].
  set (W := write_file F1 (snapshot_name now2) _ _ now2).
  eexists; eexists; split; [reflexivity|]. split.
  - intros <-.
    assert (HW : forall e, In e W -> pruneable now1 e = false).
    { intros e He. destruct (write_file_in _ _ _ _ _ _ He) as [He' | [_ [_ [_ Ht]]]].
      - apply filter_In in He' as [_ He']. destruct (pruneable now1 e); [discriminate | reflexivity].
      - apply not_pruneable_at. exact Ht. }
    rewrite (filter_none _ W HW). reflexivity.
  - destruct (write_file_named F1 (snapshot_name now2) (Parsed (state_doc input2 now2 sid2))
                (Z.of_nat (String.length (dumps (state_doc input2 now2 sid2) ++ newline))) now2 Hnd1)
      as [u Hu].
    exists (mkEntry (snapshot_name now2) (Parsed (state_doc input2 now2 sid2))
              (Z.of_nat (String.length (dumps (state_doc input2 now2 sid2) ++ newline))) now2 u).
    split; [|reflexivity].
    rewrite filter_comm. fold W in Hu. rewrite Hu. cbn [filter].
    rewrite (not_pruneable_at now2 (mkEntry _ _ _ now2 u) eq_refl). reflexivity.
Qed.

Lemma same_second_last_wins_witness :
  snapshot_name 1792396800000000 = snapshot_name 1792396800500000 /\
  exists files n,
    _save_state (Some "s2") 1792396800500000
      (fst (_save_state (Some "s1") 1792396800000000 (Dir [old_snapshot])
              (sample_input [JStr "docs"])))
      (sample_input [JStr "release"])
      = (Dir files, Output (save_message (path_of (snapshot_name 1792396800500000)) n)) /\
    (1792396800000000%Z = 1792396800500000%Z -> n = 0%Z) /\
    exists e, filter (fun e => String.eqb (fname e) (snapshot_name 1792396800500000)) files = [e] /\
      fcontent e = Parsed (state_doc (sample_input [JStr "release"]) 1792396800500000 (Some "s2")).
Proof.
  apply same_second_last_wins.
  - unfold max_now. lia.
  - unfold max_now. lia.
  - lia.
  - vm_compute. reflexivity.
  - discriminate.
  - vm_compute. reflexivity.
  - simpl. constructor; [intros [] | constructor].
  - vm_compute. reflexivity.
  - vm_compute. reflexivity.
Defined.

Lemma valid_call_range (c : option string * Z * list (string * json)) :
  valid_save_call c -> (0 <= call_time c <= max_now)%Z.
Proof. destruct c as [[sid now] input]. intros [_ [_ H]]. exact H. Qed.

Lemma run_calls_latest (calls : list (option string * Z * list (string * json))) :
  forall st sid now input,
  Forall valid_save_call (calls ++ [(sid, now, input)]) ->
  Sorted (fun a b => (a / us_per_second < b / us_per_second)%Z)
         (map call_time (calls ++ [(sid, now, input)])) ->
  before st (snapshot_name (hd now (map call_time calls))) ->
  exists files, run_calls st (calls ++ [(sid, now, input)]) = Dir files /\
                is_latest files (saved_entry sid now input).
Proof.
  induction calls as [|c rest IH]; intros st sid now input Hv Hs Hb.
  - inversion Hv as [|? ? Hc _]; subst. destruct Hc as [Hop [Hm _]].
    cbn [run_calls app]. rewrite (execute_save_store sid now st input Hop).
    destruct (save_as_latest sid now st input Hm Hb) as [files [Hf [Hl _]]].
    exists files. split; [exact Hf | exact Hl].
  - destruct c as [[sid0 now0] input0].
    inversion Hv as [|? ? Hc Hrest]; subst.
    pose proof (valid_call_range _ Hc) as Hr0. cbn [call_time] in Hr0.
    destruct Hc as [Hop [Hm _]].
    cbn [map app] in Hs. inversion Hs as [|? ? Hs' Hhd]; subst.
    cbn [hd map call_time] in Hb.
    destruct (save_as_latest sid0 now0 st input0 Hm Hb) as [files1 [Hf1 [_ Hlater]]].
    cbn [run_calls app]. rewrite (execute_save_store sid0 now0 st input0 Hop), Hf1.
    apply IH; [exact Hrest | exact Hs' |].
    apply Hlater.
    destruct rest as [|c1 rest'].
    + cbn [map hd]. cbn [map app] in Hhd. inversion Hhd as [|? ? Hlt]; subst.
      inversion Hrest as [|? ? Hc1 _]; subst.
      apply later_name; [exact Hr0 | exact (valid_call_range _ Hc1) | exact Hlt].
    + cbn [map hd]. cbn [map app] in Hhd. inversion Hhd as [|? ? Hlt]; subst.
      inversion Hrest as [|? ? Hc1 _]; subst.
      apply later_name; [exact Hr0 | exact (valid_call_range _ Hc1) | exact Hlt].
Qed.

(** A session's saves compose with loading: after a sequence of
    [save_state] calls, each valid and each in a later second than the one
    before, into a directory whose snapshots are all older than the first,
    a [load_state] call returns the state of the last save. *)
Theorem saves_then_load_latest
  (calls : list (option string * Z * list (string * json)))
  (sid : option string) (now : Z) (input : list (string * json)) (st : store)
  (sid' : option string) (t' : Z)
  (Hv : Forall valid_save_call (calls ++ [(sid, now, input)]))
  (Hs : Sorted (fun a b => (a / us_per_second < b / us_per_second)%Z)
               (map call_time (calls ++ [(sid, now, input)])))
  (Hb : before st (snapshot_name (hd now (map call_time calls)))) :
  snd (execute sid' t' (run_calls st (calls ++ [(sid, now, input)]))
         [("operation", JStr "load_state")])
  = Output (dumps (state_doc input now sid)).
Proof.
  destruct (run_calls_latest calls st sid now input Hv Hs Hb) as [files [Hr Hl]].
  rewrite Hr.
  destruct (latest_first files _ Hl) as [rest Hrest].
  assert (HL : _load_state (Dir files) = Output (dumps (state_doc input now sid)))
    by (unfold _load_state; rewrite Hrest; reflexivity).
  unfold execute, dispatch. cbn -[_load_state]. rewrite HL. reflexivity.
Qed.

Lemma saves_then_load_latest_witness :
  snd (execute None 1792400400000000
         (run_calls NoDir [(Some "s1", 1792393200000000%Z, sample_input [JStr "docs"]);
                          (Some "s2", 1792396800000000%Z, sample_input [JStr "release"])])
         [("operation", JStr "load_state")])
  = Output (dumps (state_doc (sample_input [JStr "release"]) 1792396800000000%Z (Some "s2"))).
Proof.
  apply (saves_then_load_latest [(Some "s1", 1792393200000000%Z, sample_input [JStr "docs"])]).
  - repeat constructor; try (vm_compute; reflexivity); unfold max_now; lia.
  - cbn. repeat constructor; vm_compute; reflexivity.
  - split; [discriminate | intros f []].
Defined.

(** ** The snapshot text and [json.loads] *)










Lemma scan_escape_char (c : ascii) (t : string) :
  scanstring (escape_char c ++ t) = cons_char c (scanstring t).
Proof.
  destruct c as [[] [] [] [] [] [] [] []];
  match goal with |- context [escape_char ?x] =>
    let e := eval vm_compute in (escape_char x) in change (escape_char x) with e end;
  simpl; reflexivity.
Qed.

Lemma scanstring_escape (s rest : string) : scanstring (escape s ++ dq ++ rest) = Some (s, rest).
Proof.
  induction s as [|c s IH]; [reflexivity|].
  cbn [escape]. rewrite str_app_assoc, scan_escape_char, IH. reflexivity.
Qed.












Section Items.
Variable lvl : nat.
Variable rest : string.
Let sep : string := "," ++ newline ++ indent (S lvl).

End Items.













(** ** Timestamps *)

Lemma fixed_split (m : nat) : forall (k : nat) (x : Z), (0 <= x)%Z ->
  fixed (k + m) x = fixed k (x / 10 ^ Z.of_nat m) ++ fixed m x.
Proof.
  induction m as [|m IH]; intros k x Hx.
  - rewrite Nat.add_0_r, Z.div_1_r, str_app_nil. reflexivity.
  - rewrite Nat.add_succ_r. cbn [fixed]. rewrite IH by (apply Z.div_pos; lia).
    rewrite Z.div_div by (try apply Z.pow_pos_nonneg; lia).
    rewrite Nat2Z.inj_succ, Z.pow_succ_r by lia. rewrite str_app_assoc. reflexivity.
Qed.

Lemma zeros_snoc (k : nat) : zeros k ++ "0" = "0" ++ zeros k.
Proof. induction k as [|k IH]; [reflexivity|]. cbn [zeros]. rewrite str_app_assoc, IH. reflexivity. Qed.

Lemma fixed_zero (k : nat) : fixed k 0 = zeros k.
Proof.
  induction k as [|k IH]; [reflexivity|]. cbn [fixed]. rewrite Z.div_0_l by lia. rewrite IH.
  change (String (digit 0) "") with "0". rewrite zeros_snoc. reflexivity.
Qed.

Lemma digits_fixed (f : nat) : forall (n : Z) (acc : string),
  (0 < n < 10 ^ Z.of_nat f)%Z ->
  exists m, (1 <= m)%nat /\ (10 ^ (Z.of_nat m - 1) <= n < 10 ^ Z.of_nat m)%Z /\
    digits_aux f n acc = fixed m n ++ acc.
Proof.
  induction f as [|f IH]; intros n acc Hn; [simpl in Hn; lia|].
  rewrite Nat2Z.inj_succ, Z.pow_succ_r in Hn by lia.
  cbn [digits_aux]. destruct (n <? 10)%Z eqn:E.
  - apply Z.ltb_lt in E. exists 1%nat. split; [lia|]. split; [simpl; lia|].
    reflexivity.
  - apply Z.ltb_ge in E.
    destruct (IH (n / 10)%Z (String (ascii_of_nat (48 + Z.to_nat (n mod 10))) acc)) as [m [Hm [Hr E2]]].
    { split; [apply Z.div_str_pos; lia | apply Z.div_lt_upper_bound; lia]. }
    exists (S m). split; [lia|]. split.
    + rewrite Nat2Z.inj_succ. replace (Z.succ (Z.of_nat m) - 1)%Z with (Z.of_nat m) by lia.
      rewrite Z.pow_succ_r by lia.
      pose proof (Z.div_mod n 10 ltac:(lia)). pose proof (Z.mod_pos_bound n 10 ltac:(lia)).
      replace (Z.of_nat m) with (Z.succ (Z.of_nat m - 1)) at 1 by lia.
      rewrite Z.pow_succ_r by lia. lia.
    + rewrite E2. cbn [fixed]. rewrite str_app_assoc. reflexivity.
Qed.

Lemma string_of_Z_fixed (x : Z) : (0 <= x)%Z ->
  exists m, (1 <= m)%nat /\ (x < 10 ^ Z.of_nat m)%Z /\ ((x = 0 /\ m = 1%nat) \/ 10 ^ (Z.of_nat m - 1) <= x)%Z /\
    string_of_Z x = fixed m x.
Proof.
  intro Hx. destruct (Z.eq_dec x 0) as [-> | Hne].
  - exists 1%nat. split; [lia|]. split; [simpl; lia|]. split; [left; split; reflexivity | reflexivity].
  - unfold string_of_Z. replace (x <? 0)%Z with false by (symmetry; apply Z.ltb_ge; lia).
    destruct (digits_fixed (S (Z.to_nat (Z.log2 x))) x "") as [m [Hm [Hr E]]].
    { split; [lia|]. destruct (Z.log2_spec x ltac:(lia)) as [_ H2].
      rewrite Nat2Z.inj_succ, Z2Nat.id by (apply Z.log2_nonneg).
      eapply Z.lt_le_trans; [exact H2|]. apply Z.pow_le_mono_l. lia. }
    exists m. split; [exact Hm|]. split; [lia|]. split; [right; lia|].
    rewrite E, str_app_nil. reflexivity.
Qed.

Lemma fixed_length (w : nat) (x : Z) : String.length (fixed w x) = w.
Proof.
  revert x. induction w as [|w IH]; intro x; [reflexivity|].
  cbn [fixed]. rewrite str_length_app, IH. simpl. lia.
Qed.

Lemma pad_fixed (w : nat) (x : Z) : (1 <= w)%nat -> (0 <= x < 10 ^ Z.of_nat w)%Z -> pad w x = fixed w x.
Proof.
  intros Hw Hx. destruct (string_of_Z_fixed x ltac:(lia)) as [m [Hm [Hlt [Hlo E]]]].
  assert (Hmw : (m <= w)%nat).
  { destruct (Nat.le_gt_cases m w) as [H | H]; [exact H|]. exfalso.
    destruct Hlo as [[_ ->] | Hlo]; [lia|].
    assert (10 ^ Z.of_nat w <= 10 ^ (Z.of_nat m - 1))%Z by (apply Z.pow_le_mono_r; lia). lia. }
  unfold pad. rewrite E, fixed_length, <- fixed_zero.
  replace w with ((w - m) + m)%nat at 2 by lia.
  rewrite fixed_split by lia. rewrite Z.div_small by lia. reflexivity.
Qed.


Lemma iso_tail_compare (u1 u2 : Z) : (0 <= u1 < 1000000)%Z -> (0 <= u2 < 1000000)%Z ->
  String.compare (iso_tail u1) (iso_tail u2) = Z.compare u1 u2.
Proof.
  intros H1 H2. unfold iso_tail.
  destruct (Z.eqb_spec u1 0) as [-> | N1], (Z.eqb_spec u2 0) as [-> | N2].
  - reflexivity.
  - symmetry. apply Z.compare_lt_iff. lia.
  - symmetry. apply Z.compare_gt_iff. lia.
  - cbn [append]. rewrite sep_compare.
    rewrite fixed_compare by (simpl; lia).
    destruct (Z.compare u1 u2); reflexivity.
Qed.

Lemma iso_fields_compare y1 m1 d1 h1 n1 s1 u1 y2 m2 d2 h2 n2 s2 u2 :
  (0 <= y1 < 10000)%Z -> (0 <= y2 < 10000)%Z ->
  (0 <= m1 < 100)%Z -> (0 <= m2 < 100)%Z -> (0 <= d1 < 100)%Z -> (0 <= d2 < 100)%Z ->
  (0 <= h1 < 100)%Z -> (0 <= h2 < 100)%Z -> (0 <= n1 < 100)%Z -> (0 <= n2 < 100)%Z ->
  (0 <= s1 < 100)%Z -> (0 <= s2 < 100)%Z ->
  (0 <= u1 < 1000000)%Z -> (0 <= u2 < 1000000)%Z ->
  String.compare (iso_fields y1 m1 d1 h1 n1 s1 u1) (iso_fields y2 m2 d2 h2 n2 s2 u2)
  = Z.compare ((((((y1 * 100 + m1) * 100 + d1) * 100 + h1) * 100 + n1) * 100 + s1) * 1000000 + u1)
              ((((((y2 * 100 + m2) * 100 + d2) * 100 + h2) * 100 + n2) * 100 + s2) * 1000000 + u2).
Proof.
  intros. unfold iso_fields.
  rewrite !lex_compare by nia.
  rewrite fixed_compare by (simpl; lia). cbn [append]. rewrite sep_compare.
  rewrite fixed_compare by (simpl; lia). cbn [append]. rewrite sep_compare.
  rewrite fixed_compare by (simpl; lia). cbn [append]. rewrite sep_compare.
  rewrite fixed_compare by (simpl; lia). cbn [append]. rewrite sep_compare.
  rewrite fixed_compare by (simpl; lia). cbn [append]. rewrite sep_compare.
  rewrite fixed_compare by (simpl; lia). rewrite iso_tail_compare by lia.
  destruct (Z.compare y1 y2), (Z.compare m1 m2), (Z.compare d1 d2),
           (Z.compare h1 h2), (Z.compare n1 n2), (Z.compare s1 s2); reflexivity.
Qed.

Lemma iso_as_fields (now y m d : Z) :
  civil_from_days (now / us_per_day) = (y, m, d) ->
  (0 <= y < 10000)%Z -> fields_ok (y, m, d) = true ->
  let secs := ((now mod us_per_day) / us_per_second)%Z in
  isoformat now = iso_fields y m d (secs / 3600) ((secs mod 3600) / 60) (secs mod 60)
                    (now mod us_per_second).
Proof.
  intros E Hy Hf secs.
  unfold fields_ok in Hf. apply andb_prop in Hf as [Hf Hd2]. apply andb_prop in Hf as [Hf Hd1].
  apply andb_prop in Hf as [Hm1 Hm2].
  apply Z.leb_le in Hm1, Hm2, Hd1, Hd2.
  assert (Hs : (0 <= secs < 86400)%Z).
  { unfold secs, us_per_day, us_per_second.
    pose proof (Z.mod_pos_bound now (86400 * 1000000)).
    split; [apply Z.div_pos; lia | apply Z.div_lt_upper_bound; lia]. }
  unfold isoformat, date_part, clock. rewrite E. fold secs.
  rewrite pad4_fixed by lia.
  rewrite (pad2_fixed m), (pad2_fixed d) by lia.
  rewrite (pad2_fixed (secs / 3600)) by (split; [apply Z.div_pos | apply Z.div_lt_upper_bound]; lia).
  rewrite (pad2_fixed ((secs mod 3600) / 60))
    by (pose proof (Z.mod_pos_bound secs 3600);
        split; [apply Z.div_pos | apply Z.div_lt_upper_bound]; lia).
  rewrite (pad2_fixed (secs mod 60)) by (pose proof (Z.mod_pos_bound secs 60); lia).
  rewrite (pad_fixed 6 (now mod us_per_second))
    by (try lia; unfold us_per_second; simpl; apply Z.mod_pos_bound; lia).
  unfold iso_fields, iso_tail. rewrite !str_app_assoc. reflexivity.
Qed.

Lemma isoformat_key (now : Z) : (0 <= now <= max_now)%Z ->
  exists y m d hh mm ss,
    isoformat now = iso_fields y m d hh mm ss (now mod us_per_second) /\
    snapshot_name now = fields_name y m d hh mm ss /\
    name_key now = (((((y * 100 + m) * 100 + d) * 100 + hh) * 100 + mm) * 100 + ss)%Z /\
    (0 <= y < 10000)%Z /\ (0 <= m < 100)%Z /\ (0 <= d < 100)%Z /\
    (0 <= hh < 100)%Z /\ (0 <= mm < 100)%Z /\ (0 <= ss < 100)%Z.
Proof.
  intro Hr. destruct (date_fields_in_range now Hr) as [y [m [d [E [Hy Hf]]]]].
  pose proof (iso_as_fields now y m d E ltac:(lia) Hf) as I. cbv zeta in I.
  pose proof (name_as_fields now y m d E ltac:(lia) Hf) as N. cbv zeta in N.
  set (secs := ((now mod us_per_day) / us_per_second)%Z) in I, N.
  assert (Hs : (0 <= secs < 86400)%Z).
  { unfold secs, us_per_day, us_per_second.
    pose proof (Z.mod_pos_bound now (86400 * 1000000) ltac:(lia)).
    split; [apply Z.div_pos; lia | apply Z.div_lt_upper_bound; lia]. }
  exists y, m, d, (secs / 3600)%Z, ((secs mod 3600) / 60)%Z, (secs mod 60)%Z.
  split; [exact I|]. split; [exact N|]. split.
  - unfold name_key. rewrite E. fold secs. unfold civil_key, hms. ring.
  - unfold fields_ok in Hf. apply andb_prop in Hf as [Hf Hd2]. apply andb_prop in Hf as [Hf Hd1].
    apply andb_prop in Hf as [Hm1 Hm2]. apply Z.leb_le in Hm1, Hm2, Hd1, Hd2.
    assert (0 <= secs / 3600 < 24)%Z by (split; [apply Z.div_pos | apply Z.div_lt_upper_bound]; lia).
    pose proof (Z.mod_pos_bound secs 3600 ltac:(lia)). pose proof (Z.mod_pos_bound secs 60 ltac:(lia)).
    assert (0 <= (secs mod 3600) / 60 < 60)%Z
      by (split; [apply Z.div_pos | apply Z.div_lt_upper_bound]; lia).
    lia.
Qed.

Lemma isoformat_compare (a b : Z) :
  (0 <= a <= max_now)%Z -> (0 <= b <= max_now)%Z ->
  String.compare (isoformat a) (isoformat b) = Z.compare a b.
Proof.
  intros Ha Hb.
  destruct (isoformat_key a Ha) as [y1 [m1 [d1 [h1 [n1 [s1 [Ia [_ [Ka R1]]]]]]]]].
  destruct (isoformat_key b Hb) as [y2 [m2 [d2 [h2 [n2 [s2 [Ib [_ [Kb R2]]]]]]]]].
  pose proof (Z.mod_pos_bound a us_per_second ltac:(unfold us_per_second; lia)) as Ma.
  pose proof (Z.mod_pos_bound b us_per_second ltac:(unfold us_per_second; lia)) as Mb.
  assert (U : us_per_second = 1000000%Z) by reflexivity.
  rewrite Ia, Ib, iso_fields_compare by lia.
  rewrite <- Ka, <- Kb.
  rewrite lex_compare by lia. rewrite name_key_compare.
  rewrite <- (lex_compare _ _ _ _ us_per_second) by lia.
  pose proof (Z.div_mod a us_per_second ltac:(unfold us_per_second; lia)).
  pose proof (Z.div_mod b us_per_second ltac:(unfold us_per_second; lia)).
  f_equal; lia.
Qed.

Lemma substring_app (a b : string) : substring 0 (String.length a) (a ++ b) = a.
Proof. induction a as [|c a IH]; [destruct b; reflexivity|]. simpl. rewrite IH. reflexivity. Qed.

Lemma colon_to_dash_app (a b : string) : colon_to_dash (a ++ b) = colon_to_dash a ++ colon_to_dash b.
Proof. induction a as [|c a IH]; [destruct b; reflexivity|]. simpl. rewrite IH. reflexivity. Qed.

Lemma digit_not_colon (x : Z) : Ascii.eqb (digit x) ":"%char = false.
Proof.
  apply Ascii.eqb_neq. intro E. apply (f_equal nat_of_ascii) in E.
  unfold digit in E. rewrite nat_ascii_embedding in E.
  - pose proof (Z.mod_pos_bound x 10 ltac:(lia)). change (nat_of_ascii ":"%char) with 58%nat in E. lia.
  - pose proof (Z.mod_pos_bound x 10 ltac:(lia)). lia.
Qed.

Lemma colon_to_dash_fixed (w : nat) (x : Z) : colon_to_dash (fixed w x) = fixed w x.
Proof.
  revert x. induction w as [|w IH]; intro x; [reflexivity|].
  cbn [fixed]. rewrite colon_to_dash_app, IH. cbn [colon_to_dash]. rewrite digit_not_colon. reflexivity.
Qed.

Lemma name_from_iso (y m d hh mm ss us : Z) :
  fields_name y m d hh mm ss = colon_to_dash (substring 0 19 (iso_fields y m d hh mm ss us)) ++ ".json".
Proof.
  unfold fields_name, iso_fields.
  set (P := fixed 4 y ++ "-" ++ fixed 2 m ++ "-" ++ fixed 2 d ++ "T"
            ++ fixed 2 hh ++ ":" ++ fixed 2 mm ++ ":" ++ fixed 2 ss).
  assert (HL : String.length P = 19%nat).
  { unfold P. rewrite !str_length_app, !fixed_length. reflexivity. }
  replace (fixed 4 y ++ "-" ++ fixed 2 m ++ "-" ++ fixed 2 d ++ "T"
           ++ fixed 2 hh ++ ":" ++ fixed 2 mm ++ ":" ++ fixed 2 ss ++ iso_tail us)
    with (P ++ iso_tail us) by (unfold P; rewrite !str_app_assoc; reflexivity).
  rewrite <- HL, substring_app. unfold P.
  rewrite !colon_to_dash_app, !colon_to_dash_fixed. rewrite !str_app_assoc.
  change (colon_to_dash ":") with "-". change (colon_to_dash "-") with "-".
  change (colon_to_dash "T") with "T". reflexivity.
Qed.

(** The name of the snapshot file [_save_state] writes is the first 19
    characters of the [timestamp] field it writes into it (date, hour,
    minute and second), with the colons turned into dashes, and [.json]. *)
Theorem snapshot_name_from_timestamp (now : Z) (H : (0 <= now <= max_now)%Z) :
  snapshot_name now = colon_to_dash (substring 0 19 (isoformat now)) ++ ".json".
Proof.
  destruct (isoformat_key now H) as [y [m [d [hh [mm [ss [I [N _]]]]]]]].
  rewrite I, N. apply name_from_iso.
Qed.

(** ** Further facts of the state tool *)

(** A string value written by [json.dumps] (its escaping and closing quote)
    is read back by [json.loads]'s [scanstring] as the same text, and the
    reading stops right after the closing quote.  Strings are here those
    of code points 0 to 255, one character per code point. *)
Theorem string_literal_roundtrip (s rest : string) :
  scanstring (escape s ++ dq ++ rest) = Some (s, rest).
Proof. exact (scanstring_escape s rest). Qed.





(** The [timestamp] field [_save_state] writes sorts like the clock
    reading it was taken from, to the microsecond, for any time [datetime]
    can represent from the epoch on. *)
Theorem isoformat_follows_time (a b : Z)
  (Ha : (0 <= a <= max_now)%Z) (Hb : (0 <= b <= max_now)%Z) :
  String.compare (isoformat a) (isoformat b) = Z.compare a b.
Proof. exact (isoformat_compare a b Ha Hb). Qed.

Lemma isoformat_follows_time_witness :
  String.compare (isoformat 1792393199999999) (isoformat 1792393200000000)
  = Z.compare 1792393199999999 1792393200000000.
Proof. apply isoformat_follows_time; unfold max_now; lia. Defined.

Lemma snapshot_name_from_timestamp_witness :
  snapshot_name 1792393200123456
  = colon_to_dash (substring 0 19 (isoformat 1792393200123456)) ++ ".json".
Proof. apply snapshot_name_from_timestamp. unfold max_now. lia. Defined.
